(** * fldoc: the documentation object model of [src/classes.js]

    A shallow embedding of the classes that [classes.js] builds from the
    parsed Factorio JSON documentation ([Image], [Type], [BasicMember],
    [Concept], [DefineValue], [Define], [Property], [Prototype], [Parameter],
    [ParameterGroup], [VariadicParameter], [MethodFormat], [EventRaised],
    [Attribute], [Method], [Class]) together with the LuaDoc strings they render
    ([toString], [toField], [toClass]).

    JavaScript behaviour the classes rely on (truthiness, [||], [typeof],
    loose equality with a string, string conversion in [+] and template
    literals, [split], [replaceAll], [join], property reads that throw on
    [null]) is written out in module [JS]. *)

From Stdlib Require Import String Ascii List ZArith Bool DecimalString.
Import ListNotations.
Local Open Scope list_scope.
Local Open Scope string_scope.

(** ** Parsed JSON and JavaScript values *)

(** The primitive JSON values.  Numbers are the integer literals; their
    string conversion is plain decimal, as JavaScript prints integers of
    magnitude below 10^21. *)
Inductive prim : Type :=
| Null
| Bool (b : bool)
| Num (n : Z)
| Str (s : string).

Unset Elimination Schemes.

(** What [JSON.parse] returns: a primitive, an array, or an object given by
    its own properties (the first binding of a name is the property). *)
Inductive json : Type :=
| Prim (p : prim)
| Arr (xs : list json)
| Obj (fs : list (string * json)).

Set Elimination Schemes.

Coercion Prim : prim >-> json.

(** A JavaScript value that reached a field unchanged: [undefined] (the
    read of a missing property) or a parsed JSON value. *)
Inductive jsval : Type :=
| Undefined
| Val (j : json).

Coercion Val : json >-> jsval.

(** Results of code that can throw.  Every exception this file can raise is
    a [TypeError] (a property read on [null] or [undefined], a call of
    something that is not a function, an object with no primitive value). *)
Inductive res (A : Type) : Type :=
| Ok (a : A)
| TypeError.

Arguments Ok {A} a.
Arguments TypeError {A}.

Definition bind {A B} (r : res A) (k : A -> res B) : res B :=
  match r with
  | Ok a => k a
  | TypeError => TypeError
  end.

Notation "x <- r ;; k" := (bind r (fun x => k))
  (at level 61, r at next level, right associativity).

Definition succeeds {A} (r : res A) : Prop := exists a, r = Ok a.

Module JS.

(** [for (const x of xs) { out.push(f(x)) }] where [f] may throw. *)
Definition mapM {A B} (f : A -> res B) : list A -> res (list B) :=
  fix go xs :=
    match xs with
    | [] => Ok []
    | x :: r => y <- f x ;; ys <- go r ;; Ok (y :: ys)
    end.

(** Own-property lookup in a parsed object. *)
Definition assoc {A} (k : string) : list (string * A) -> option A :=
  fix go fs :=
    match fs with
    | [] => None
    | (k', v) :: r => if String.eqb k k' then Some v else go r
    end.

(** [assoc_with f k fs] is [f] applied to the property [k] of [fs], when
    there is one. *)
Definition assoc_with {A} (f : json -> A) (k : string)
  : list (string * json) -> option A :=
  fix go fs :=
    match fs with
    | [] => None
    | (k', v) :: r => if String.eqb k k' then Some (f v) else go r
    end.

(** [json.k] for a [json] that is not [null].  A primitive or an array has
    none of the properties this file reads, with one exception that cannot
    be observed: on an array, [values] is the function
    [Array.prototype.values], and it is only ever handed to
    [Array.isArray], which answers [false] as it does for [undefined]. *)
Definition field (j : json) (k : string) : jsval :=
  match j with
  | Obj fs => match assoc k fs with Some v => Val v | None => Undefined end
  | _ => Undefined
  end.

Definition is_null (j : json) : bool :=
  match j with Prim Null => true | _ => false end.

(** ToBoolean. *)
Definition truthy_json (j : json) : bool :=
  match j with
  | Prim Null => false
  | Prim (Bool b) => b
  | Prim (Num n) => negb (Z.eqb n 0)
  | Prim (Str s) => negb (String.eqb s "")
  | Arr _ | Obj _ => true
  end.

Definition truthy (v : jsval) : bool :=
  match v with
  | Undefined => false
  | Val j => truthy_json j
  end.

(** [v || d] *)
Definition or_else (v : jsval) (d : json) : json :=
  match v with
  | Undefined => d
  | Val j => if truthy_json j then j else d
  end.

(** [typeof] of a primitive. *)
Definition typeof_prim (p : prim) : string :=
  match p with
  | Null => "object"
  | Bool _ => "boolean"
  | Num _ => "number"
  | Str _ => "string"
  end.

Definition Number_toString (n : Z) : string :=
  NilZero.string_of_int (Z.to_int n).

(** ToString of a primitive. *)
Definition prim_toString (p : prim) : string :=
  match p with
  | Null => "null"
  | Bool true => "true"
  | Bool false => "false"
  | Num n => Number_toString n
  | Str s => s
  end.

(** [Array.prototype.join] on strings already converted. *)
Fixpoint join (sep : string) (xs : list string) : string :=
  match xs with
  | [] => ""
  | [x] => x
  | x :: r => x ++ sep ++ join sep r
  end.

(** ToString of a parsed JSON value.  An array joins its elements with a
    comma, [null] elements giving the empty string.  An object prints as
    [[object Object]] through [Object.prototype.toString]; when it has an
    own property [toString] (never a function in parsed JSON) there is no
    primitive value and the conversion throws. *)
Fixpoint ToString (j : json) : res string :=
  match j with
  | Prim p => Ok (prim_toString p)
  | Arr xs =>
      parts <- mapM (fun x => match x with
                              | Prim Null => Ok ""
                              | _ => ToString x
                              end) xs ;;
      Ok (join "," parts)
  | Obj fs =>
      match assoc "toString" fs with
      | Some _ => TypeError
      | None => Ok "[object Object]"
      end
  end.

Definition jsval_ToString (v : jsval) : res string :=
  match v with
  | Undefined => Ok "undefined"
  | Val j => ToString j
  end.

(** The element conversion of [Array.prototype.join]. *)
Definition join_elem (v : jsval) : res string :=
  match v with
  | Undefined | Val (Prim Null) => Ok ""
  | Val j => ToString j
  end.

(** [v == s] for [s] one of the kind names ["array"], ["dictionary"],
    ["tuple"], ["union"], ["literal"], ["type"].  None of them reads as a
    number, so a number or a boolean is never equal to it; an array or an
    object is compared through its primitive value. *)
Definition loose_eq (v : jsval) (s : string) : res bool :=
  match v with
  | Undefined => Ok false
  | Val (Prim Null) => Ok false
  | Val (Prim (Bool _)) => Ok false
  | Val (Prim (Num _)) => Ok false
  | Val (Prim (Str t)) => Ok (String.eqb t s)
  | Val j => t <- ToString j ;; Ok (String.eqb t s)
  end.

(** [v === s] *)
Definition strict_eq (v : jsval) (s : string) : bool :=
  match v with
  | Val (Prim (Str t)) => String.eqb t s
  | _ => false
  end.

Definition newline : ascii := ascii_of_nat 10.

(** [s.split(sep)] for a one-character separator. *)
Fixpoint split (sep : ascii) (s : string) : list string :=
  match s with
  | EmptyString => [""]
  | String c r =>
      if Ascii.eqb c sep then "" :: split sep r
      else match split sep r with
           | [] => [String c ""]
           | x :: xs => String c x :: xs
           end
  end.

(** [xs[0]] as an operand of [+] with a string: a missing element is
    [undefined]. *)
Definition first_or_undefined (xs : list string) : string :=
  match xs with
  | [] => "undefined"
  | x :: _ => x
  end.

(** [v.split('\n')[0]].  Only a string has a [split] method: reading it
    from [undefined] or [null] throws, and on any other value the property
    is missing or (an own property of a parsed object) not a function. *)
Definition split_first_line (v : jsval) : res string :=
  match v with
  | Val (Prim (Str s)) => Ok (first_or_undefined (split newline s))
  | _ => TypeError
  end.

(** [s.replaceAll(pat, rep)] for a non-empty [pat]: matches are taken left
    to right and do not overlap; [skip] counts the characters of the current
    match still to be dropped. *)
Fixpoint replaceAll_from (pat rep : string) (skip : nat) (s : string) : string :=
  match s with
  | EmptyString => ""
  | String c r =>
      match skip with
      | S k => replaceAll_from pat rep k r
      | O =>
          if String.prefix pat s
          then rep ++ replaceAll_from pat rep (String.length pat - 1) r
          else String c (replaceAll_from pat rep 0 r)
      end
  end.

Definition replaceAll (pat rep s : string) : string :=
  replaceAll_from pat rep 0 s.

(** [v.replaceAll(pat, rep)]: as for [split], only a string has the method. *)
Definition replaceAll_method (v : jsval) (pat rep : string) : res string :=
  match v with
  | Val (Prim (Str s)) => Ok (replaceAll pat rep s)
  | _ => TypeError
  end.

(** The primitive value of an object whose [toString] returned [r], as a
    string: [Object.prototype.valueOf] gives the object back, so [toString]
    decides, and a result that is itself an object is a [TypeError]. *)
Definition primitive_ToString (r : jsval) : res string :=
  match r with
  | Undefined => Ok "undefined"
  | Val (Prim p) => Ok (prim_toString p)
  | Val _ => TypeError
  end.

Definition dquote : string := String (ascii_of_nat 34) EmptyString.

End JS.

Import JS.

(** ** Image *)

Module Image.

Record t : Type := mk {
  filename : jsval;
  caption : json
}.

Definition new (j : json) : res t :=
  if is_null j then TypeError
  else Ok {| filename := field j "filename";
             caption := or_else (field j "caption") Null |}.

End Image.

(** ** Type *)

(** A position that holds either a nested [Type] or a primitive kept as it
    came. *)
Inductive slot (T : Type) : Type :=
| SType (t : T)
| SPrim (p : prim).

Arguments SType {T} t.
Arguments SPrim {T} p.

Module Type_.

Unset Elimination Schemes.

Inductive t : Type := mk {
  complex_type : jsval;
  key : option t;
  value : slot t;
  values : option (list (slot t));
  options : option (list (slot t));
  full_format : json;
  description : json
}.

Set Elimination Schemes.

(** The constructor, for an argument that is not [null] (for [null] the
    source throws at [json.complex_type]; every caller tests its argument
    for truthiness or against [null] first).  A string is the shorthand: it
    sets [complex_type] and leaves every other field at its [null]
    initialiser.  A number, a boolean or an array has none of the
    properties read.  [elem] is the body of the two [for] loops and of the
    [value] test: an object (or array) is built, a primitive is kept. *)
Fixpoint new (j : json) : t :=
  let elem := fun x : json =>
    match x with
    | Prim p => SPrim p
    | _ => SType (new x)
    end in
  let elems := fun v : json =>
    match v with
    | Arr xs => Some (map elem xs)
    | _ => None
    end in
  match j with
  | Prim (Str s) =>
      mk (Val (Str s)) None (SPrim Null) None None Null Null
  | Prim _ | Arr _ =>
      mk Undefined None (SPrim Null) None None Null Null
  | Obj fs =>
      mk
        (field j "complex_type")
        (match assoc_with (fun v => if truthy_json v then Some (new v) else None)
                          "key" fs with
         | Some k => k
         | None => None
         end)
        (match assoc_with elem "value" fs with
         | Some v => v
         | None => SPrim Null
         end)
        (match assoc_with elems "values" fs with
         | Some vs => vs
         | None => None
         end)
        (match assoc_with elems "options" fs with
         | Some os => os
         | None => None
         end)
        (or_else (field j "full_format") Null)
        (or_else (field j "description") Null)
  end.

(** [json.k ? new Type(json.k) : null] *)
Definition new_if_truthy (v : jsval) : option t :=
  match v with
  | Undefined => None
  | Val j => if truthy_json j then Some (new j) else None
  end.

Definition slot_typeof (v : slot t) : string :=
  match v with
  | SType _ => "object"
  | SPrim p => typeof_prim p
  end.

(** [toString].  It returns a string on every branch but the last two,
    which hand back whatever [toString] of the wrapped value or the
    [complex_type] field holds.  [slot_str] is a slot used as an operand of
    [+] with a string; [slot_toString] is the method call [v.toString()],
    which throws on [null]; [joined sep xs] is
    [xs.map(v => v.toString()).join(sep)]. *)
Fixpoint toString (ty : t) : res jsval :=
  let slot_str := fun v : slot t =>
    match v with
    | SPrim p => Ok (prim_toString p)
    | SType t' => r <- toString t' ;; primitive_ToString r
    end in
  let slot_toString := fun v : slot t =>
    match v with
    | SType t' => toString t'
    | SPrim Null => TypeError
    | SPrim p => Ok (Val (Str (prim_toString p)))
    end in
  let joined := fun (sep : string) (vs : option (list (slot t))) =>
    match vs with
    | None => TypeError
    | Some xs =>
        rs <- mapM slot_toString xs ;;
        parts <- mapM join_elem rs ;;
        Ok (join sep parts)
    end in
  match ty with
  | mk ct k v vs os ff d =>
      is_array <- loose_eq ct "array" ;;
      if is_array then
        sv <- slot_str v ;;
        Ok (Val (Str (sv ++ "[]")))
      else
      is_dictionary <- loose_eq ct "dictionary" ;;
      if is_dictionary then
        sk <- match k with
              | None => Ok "null"
              | Some t' => r <- toString t' ;; primitive_ToString r
              end ;;
        sv <- slot_str v ;;
        Ok (Val (Str ("table<" ++ sk ++ ", " ++ sv ++ ">")))
      else
      is_tuple <- loose_eq ct "tuple" ;;
      if is_tuple then
        s <- joined ", " vs ;;
        Ok (Val (Str ("tuple<" ++ s ++ ">")))
      else
      is_union <- loose_eq ct "union" ;;
      if is_union then
        s <- joined " | " os ;;
        Ok (Val (Str s))
      else
      is_literal <- loose_eq ct "literal" ;;
      if is_literal then
        if String.eqb (slot_typeof v) "string" then
          if truthy_json d then
            sd <- ToString d ;;
            Ok (Val (Str ("string " ++ dquote ++ dquote ++ dquote ++ sd ++ dquote)))
          else
            sv <- slot_str v ;;
            Ok (Val (Str ("string " ++ dquote ++ dquote ++ dquote ++ sv ++ dquote)))
        else if String.eqb (slot_typeof v) "number"
                || String.eqb (slot_typeof v) "boolean" then
          if truthy_json d then
            sd <- ToString d ;;
            Ok (Val (Str (slot_typeof v ++ " " ++ sd)))
          else
            Ok (Val (Str (slot_typeof v)))
        else
          Ok (Val (Str "any"))
      else
      is_type <- loose_eq ct "type" ;;
      if is_type then slot_toString v
      else Ok ct
  end.

(** The method call [v.toString()] on a slot, as [toString] uses it on the
    elements of [values] and [options]. *)
Definition slot_toString (v : slot t) : res jsval :=
  match v with
  | SType t' => toString t'
  | SPrim Null => TypeError
  | SPrim p => Ok (Val (Str (prim_toString p)))
  end.

(** A slot as an operand of [+] with a string. *)
Definition slot_str (v : slot t) : res string :=
  match v with
  | SPrim p => Ok (prim_toString p)
  | SType t' => r <- toString t' ;; primitive_ToString r
  end.

(** [xs.map(v => v.toString()).join(sep)] *)
Definition joined (sep : string) (vs : option (list (slot t))) : res string :=
  match vs with
  | None => TypeError
  | Some xs =>
      rs <- mapM slot_toString xs ;;
      parts <- mapM join_elem rs ;;
      Ok (join sep parts)
  end.

(** A [Type] or [null] as an operand of [+] with a string. *)
Definition str (ty : option t) : res string :=
  match ty with
  | None => Ok "null"
  | Some t' => r <- toString t' ;; primitive_ToString r
  end.

End Type_.

(** [json.k ? new C(json.k) : null] for a class [C] whose constructor is
    [new_C]. *)
Definition new_if_truthy {A} (new_C : json -> res A) (v : jsval) : res (option A) :=
  match v with
  | Undefined => Ok None
  | Val j => if truthy_json j then a <- new_C j ;; Ok (Some a) else Ok None
  end.

(** [if (Array.isArray(json.k)) { for ... push(new C(x)) } else { null }] *)
Definition new_each {A} (new_C : json -> res A) (v : jsval) : res (option (list A)) :=
  match v with
  | Val (Arr xs) => built <- mapM new_C xs ;; Ok (Some built)
  | _ => Ok None
  end.

(** ** BasicMember *)

Module BasicMember.

Record t : Type := mk {
  name : jsval;
  order : jsval;
  description : json;
  lists : json;
  examples : json;
  images : option (list Image.t)
}.

Definition new (j : json) : res t :=
  if is_null j then TypeError
  else
    imgs <- new_each Image.new (field j "images") ;;
    Ok {| name := field j "name";
          order := field j "order";
          description := or_else (field j "description") (Str "");
          lists := or_else (field j "lists") Null;
          examples := or_else (field j "examples") Null;
          images := imgs |}.

End BasicMember.

(** ** DefineValue *)

Module DefineValue.

Record t : Type := mk {
  name : jsval;
  order : jsval;
  description : jsval
}.

Definition new (j : json) : res t :=
  if is_null j then TypeError
  else Ok {| name := field j "name";
             order := field j "order";
             description := field j "description" |}.

Definition toField (d : t) : res string :=
  firstLineDesc <- split_first_line (description d) ;;
  n <- jsval_ToString (name d) ;;
  Ok ("---@field " ++ n ++ " " ++ dquote ++ n ++ dquote ++ firstLineDesc).

End DefineValue.

(** ** Property *)

Module Property_.

Record t : Type := mk {
  base : BasicMember.t;
  visibility : json;
  alt_name : json;
  override : json;
  type : option Type_.t;
  optional : json;
  default : json
}.

Definition new (j : json) : res t :=
  b <- BasicMember.new j ;;
  Ok {| base := b;
        visibility := or_else (field j "visibility") Null;
        alt_name := or_else (field j "alt_name") Null;
        override := or_else (field j "override") (Bool false);
        type := Type_.new_if_truthy (field j "type");
        optional := or_else (field j "optional") (Bool false);
        default := or_else (field j "default") Null |}.

Definition toField (p : t) : res string :=
  firstLineDesc <- split_first_line (BasicMember.description (base p)) ;;
  n <- jsval_ToString (BasicMember.name (base p)) ;;
  ty <- Type_.str (type p) ;;
  Ok ("---@field " ++ n ++ " " ++ ty ++ " " ++ firstLineDesc).

End Property_.

(** ** Prototype *)

Module Prototype.

Record t : Type := mk {
  base : BasicMember.t;
  visibility : json;
  parent : json;
  abstract : json;
  typename : json;
  instance_limit : json;
  deprecated : json;
  properties : option (list Property_.t);
  custom_properties : json;
  default : json
}.

(** [properties] has no [else] branch: it keeps its [null] initialiser when
    the JSON field is not an array. *)
Definition new (j : json) : res t :=
  b <- BasicMember.new j ;;
  props <- new_each Property_.new (field j "properties") ;;
  Ok {| base := b;
        visibility := or_else (field j "visibility") Null;
        parent := or_else (field j "parent") Null;
        abstract := or_else (field j "abstract") (Bool false);
        typename := or_else (field j "typename") Null;
        instance_limit := or_else (field j "instance_limit") Null;
        deprecated := or_else (field j "deprecated") (Bool false);
        properties := props;
        custom_properties := or_else (field j "custom_properties") Null;
        default := or_else (field j "default") Null |}.

Definition toClass (p : t) : res string :=
  n <- jsval_ToString (BasicMember.name (base p)) ;;
  Ok ("---@class " ++ n).

End Prototype.

(** ** Parameter, ParameterGroup, VariadicParameter, MethodFormat, EventRaised *)

Module Parameter_.

Record t : Type := mk {
  name : jsval;
  order : jsval;
  description : jsval;
  type : option Type_.t;
  optional : json
}.

Definition new (j : json) : res t :=
  if is_null j then TypeError
  else Ok {| name := field j "name";
             order := field j "order";
             description := field j "description";
             type := Type_.new_if_truthy (field j "type");
             optional := or_else (field j "optional") (Bool false) |}.

End Parameter_.

Module ParameterGroup.

Record t : Type := mk {
  name : jsval;
  order : jsval;
  description : jsval;
  parameters : option (list Parameter_.t)
}.

Definition new (j : json) : res t :=
  if is_null j then TypeError
  else
    params <- new_each Parameter_.new (field j "parameters") ;;
    Ok {| name := field j "name";
          order := field j "order";
          description := field j "description";
          parameters := params |}.

End ParameterGroup.

Module VariadicParameter.

Record t : Type := mk {
  type : option Type_.t;
  description : jsval
}.

Definition new (j : json) : res t :=
  if is_null j then TypeError
  else Ok {| type := Type_.new_if_truthy (field j "type");
             description := field j "description" |}.

End VariadicParameter.

Module MethodFormat.

Record t : Type := mk {
  takes_table : json;
  takes_optional : json
}.

Definition new (j : json) : res t :=
  if is_null j then TypeError
  else Ok {| takes_table := or_else (field j "takes_table") (Bool false);
             takes_optional := or_else (field j "takes_optional") Null |}.

End MethodFormat.

Module EventRaised.

Record t : Type := mk {
  name : jsval;
  order : jsval;
  description : jsval;
  timeframe : jsval;
  optional : jsval
}.

Definition new (j : json) : res t :=
  if is_null j then TypeError
  else Ok {| name := field j "name";
             order := field j "order";
             description := field j "description";
             timeframe := field j "timeframe";
             optional := field j "optional" |}.

End EventRaised.

(** ** Attribute *)

Module Attribute.

Record t : Type := mk {
  base : BasicMember.t;
  visibility : json;
  raises : option (list EventRaised.t);
  subclasses : json;
  read_type : option Type_.t;
  write_type : option Type_.t;
  optional : json
}.

Definition new (j : json) : res t :=
  b <- BasicMember.new j ;;
  rs <- new_each EventRaised.new (field j "raises") ;;
  Ok {| base := b;
        visibility := or_else (field j "visibility") Null;
        raises := rs;
        subclasses := or_else (field j "subclasses") Null;
        read_type := Type_.new_if_truthy (field j "read_type");
        write_type := Type_.new_if_truthy (field j "write_type");
        optional := or_else (field j "optional") (Bool false) |}.

(** The local variable [typeStr] of [toField] after the [if] chain. *)
Definition typeStr (a : t) : res jsval :=
  match read_type a, write_type a with
  | Some r, Some w =>
      sr <- Type_.toString r ;;
      sw <- Type_.toString w ;;
      pr <- jsval_ToString sr ;;
      pw <- jsval_ToString sw ;;
      Ok (Val (Str (pr ++ " | " ++ pw)))
  | Some r, None => Type_.toString r
  | None, Some w => Type_.toString w
  | None, None => Ok (Val (Str "any"))
  end.

Definition toField (a : t) : res string :=
  firstLineDesc <- split_first_line (BasicMember.description (base a)) ;;
  ty <- typeStr a ;;
  n <- jsval_ToString (BasicMember.name (base a)) ;;
  sty <- jsval_ToString ty ;;
  Ok ("---@field " ++ n ++ " " ++ sty ++ " " ++ firstLineDesc).

End Attribute.

(** ** Method *)

Module Method.

Record t : Type := mk {
  base : BasicMember.t;
  visibility : json;
  raises : option (list EventRaised.t);
  subclasses : json;
  parameters : option (list Parameter_.t);
  variant_parameter_groups : option (list ParameterGroup.t);
  variant_parameter_description : json;
  variadic_parameter : option VariadicParameter.t;
  format : option MethodFormat.t;
  return_values : option (list Parameter_.t)
}.

Definition new (j : json) : res t :=
  b <- BasicMember.new j ;;
  rs <- new_each EventRaised.new (field j "raises") ;;
  ps <- new_each Parameter_.new (field j "parameters") ;;
  gs <- new_each ParameterGroup.new (field j "variant_parameter_groups") ;;
  vp <- new_if_truthy VariadicParameter.new (field j "variadic_parameter") ;;
  fmt <- new_if_truthy MethodFormat.new (field j "format") ;;
  rvs <- new_each Parameter_.new (field j "return_values") ;;
  Ok {| base := b;
        visibility := or_else (field j "visibility") Null;
        raises := rs;
        subclasses := or_else (field j "subclasses") Null;
        parameters := ps;
        variant_parameter_groups := gs;
        variant_parameter_description :=
          or_else (field j "variant_parameter_description") Null;
        variadic_parameter := vp;
        format := fmt;
        return_values := rvs |}.

(** [parameter.name + ':' + parameter.type.toString().replaceAll("defines.", "")] *)
Definition param_text (p : Parameter_.t) : res string :=
  match Parameter_.type p with
  | None => TypeError
  | Some ty =>
      r <- Type_.toString ty ;;
      stripped <- replaceAll_method r "defines." "" ;;
      n <- jsval_ToString (Parameter_.name p) ;;
      Ok (n ++ ":" ++ stripped)
  end.

(** The [for] loop of [toField], from the element reached with [params]
    accumulated so far; the separator is appended after every element but
    the last. *)
Fixpoint params_loop (ps : list Parameter_.t) (params : string) : res string :=
  match ps with
  | [] => Ok params
  | p :: rest =>
      txt <- param_text p ;;
      let params := params ++ txt in
      let params := match rest with
                    | [] => params
                    | _ :: _ => params ++ ", "
                    end in
      params_loop rest params
  end.

Definition toField (m : t) : res string :=
  firstLineDesc <- split_first_line (BasicMember.description (base m)) ;;
  params <- match parameters m with
            | Some ps => params_loop ps ""
            | None => Ok ""
            end ;;
  n <- jsval_ToString (BasicMember.name (base m)) ;;
  Ok ("---@field " ++ n ++ " fun(" ++ params ++ ") " ++ firstLineDesc).

End Method.

(** ** Class *)

Module Class_.

(** An entry of [operators]: an instance of [Method] or of [Attribute]. *)
Inductive operator : Type :=
| OpMethod (m : Method.t)
| OpAttribute (a : Attribute.t).

Record t : Type := mk {
  base : BasicMember.t;
  visibility : json;
  parent : json;
  abstract : json;
  methods : option (list Method.t);
  attributes : option (list Attribute.t);
  operators : option (list operator)
}.

(** The body of the loop over [json.operators]: the value of the local
    [operator] when the body ends, [None] standing for its initial [null]. *)
Definition operator_of (op : json) : res (option operator) :=
  if is_null op then TypeError
  else if strict_eq (field op "name") "call"
          || strict_eq (field op "name") "index"
          || strict_eq (field op "name") "length"
  then
    if truthy (field op "parameters") || truthy (field op "return_values")
    then m <- Method.new op ;; Ok (Some (OpMethod m))
    else a <- Attribute.new op ;; Ok (Some (OpAttribute a))
  else Ok None.

Fixpoint operators_loop (ops : list json) : res (list operator) :=
  match ops with
  | [] => Ok []
  | op :: rest =>
      o <- operator_of op ;;
      os <- operators_loop rest ;;
      Ok (match o with
          | Some x => x :: os
          | None => os
          end)
  end.

Definition new (j : json) : res t :=
  b <- BasicMember.new j ;;
  ms <- new_each Method.new (field j "methods") ;;
  ats <- new_each Attribute.new (field j "attributes") ;;
  ops <- match field j "operators" with
         | Val (Arr xs) => os <- operators_loop xs ;; Ok (Some os)
         | _ => Ok None
         end ;;
  Ok {| base := b;
        visibility := or_else (field j "visibility") Null;
        parent := or_else (field j "parent") Null;
        abstract := or_else (field j "abstract") (Bool false);
        methods := ms;
        attributes := ats;
        operators := ops |}.

Definition toClass (c : t) : res string :=
  n <- jsval_ToString (BasicMember.name (base c)) ;;
  Ok ("---@class " ++ n).

End Class_.

(** ** Concept *)

Module Concept.

Record t : Type := mk {
  base : BasicMember.t;
  parent : json;
  abstract : json;
  inline : json;
  type : option Type_.t;
  properties : option (list Property_.t)
}.

Definition new (j : json) : res t :=
  b <- BasicMember.new j ;;
  props <- new_each Property_.new (field j "properties") ;;
  Ok {| base := b;
        parent := or_else (field j "parent") Null;
        abstract := or_else (field j "abstract") (Bool false);
        inline := or_else (field j "inline") (Bool false);
        type := Type_.new_if_truthy (field j "type");
        properties := props |}.

Definition toClass (c : t) : res string :=
  n <- jsval_ToString (BasicMember.name (base c)) ;;
  Ok ("---@class " ++ n).

End Concept.

(** ** Define *)

Module Define.

Unset Elimination Schemes.

Inductive t : Type := mk {
  base : BasicMember.t;
  values : option (list DefineValue.t);
  subkeys : option (list t)
}.

Set Elimination Schemes.

(** The constructor calls itself on every element of [json.subkeys]; the
    read of [subkeys] is written on the properties of the object so that
    the recursion is on a part of [j]. *)
Fixpoint new (j : json) : res t :=
  b <- BasicMember.new j ;;
  vals <- new_each DefineValue.new (field j "values") ;;
  subs <- match j with
          | Obj fs =>
              match assoc_with
                      (fun v => match v with
                                | Arr xs => built <- mapM new xs ;; Ok (Some built)
                                | _ => Ok None
                                end) "subkeys" fs with
              | Some r => r
              | None => Ok None
              end
          | _ => Ok None
          end ;;
  Ok {| base := b; values := vals; subkeys := subs |}.

Definition toString (d : t) : res string :=
  n <- jsval_ToString (BasicMember.name (base d)) ;;
  Ok ("---@class " ++ n).

End Define.

(** ** Vocabulary of the statements *)

(** The strings [Type.toString] compares [complex_type] with. *)
Definition kind_names : list string :=
  ["array"; "dictionary"; "tuple"; "union"; "literal"; "type"].

(** The first line of a description, [d.split('\n')[0]]. *)
Definition first_line (d : string) : string :=
  first_or_undefined (split newline d).

(** The opening of a rendered string literal: [string], a space and three
    double quotes. *)
Definition literal_open : string := "string " ++ dquote ++ dquote ++ dquote.

(** [occurs pat s]: [pat] matches somewhere in [s]. *)
Fixpoint occurs (pat s : string) : bool :=
  match s with
  | EmptyString => String.prefix pat EmptyString
  | String _ r => String.prefix pat s || occurs pat r
  end.

(** [contains_char c s]: the character [c] appears in [s]. *)
Fixpoint contains_char (c : ascii) (s : string) : bool :=
  match s with
  | EmptyString => false
  | String c' r => Ascii.eqb c' c || contains_char c r
  end.

(** How [Method.toField] writes one parameter whose name is [pn] and whose
    type renders as [r]. *)
Definition param_sig (p : string * string) : string :=
  fst p ++ ":" ++ replaceAll "defines." "" (snd p).

(** The test of the loop over [json.operators]: the entry is named [call],
    [index] or [length]. *)
Definition is_operator_name (op : json) : bool :=
  strict_eq (field op "name") "call"
  || strict_eq (field op "name") "index"
  || strict_eq (field op "name") "length".

(** An operator entry exposes [parameters] or [return_values]. *)
Definition exposes_signature (op : json) : bool :=
  truthy (field op "parameters") || truthy (field op "return_values").

(** The operator list as the specification words it: the entries named
    [call], [index] or [length], in input order, each built as a [Method]
    when it exposes a signature and as an [Attribute] otherwise. *)
Definition operator_build (op : json) : res Class_.operator :=
  if exposes_signature op
  then m <- Method.new op ;; Ok (Class_.OpMethod m)
  else a <- Attribute.new op ;; Ok (Class_.OpAttribute a).

Definition operators_spec (ops : list json) : res (list Class_.operator) :=
  mapM operator_build (filter is_operator_name ops).

(** [v] is not an array: what [Array.isArray] rejects. *)
Definition not_array (v : jsval) : Prop :=
  match v with
  | Val (Arr _) => False
  | _ => True
  end.

(** A slot that holds a type: a nested [Type] or a bare name. *)
Definition slot_is_type {T} (ok : T -> bool) (v : slot T) : bool :=
  match v with
  | SType t' => ok t'
  | SPrim (Str _) => true
  | SPrim _ => false
  end.

(** [well_formed ty]: [ty] has the fields its kind needs.  The kind is a
    string; an array and an alias have a type as [value]; a dictionary has a
    [key] and a type as [value]; a tuple has [values] and a union has
    [options], every element a type; a literal has a primitive (or [null])
    description; any other kind is a name; and every nested [Type] is well
    formed. *)
Fixpoint well_formed (ty : Type_.t) : bool :=
  match ty with
  | Type_.mk ct k v vs os ff d =>
      match ct with
      | Val (Prim (Str c)) =>
          if String.eqb c "array" then slot_is_type well_formed v
          else if String.eqb c "dictionary" then
            match k with
            | Some k' => well_formed k' && slot_is_type well_formed v
            | None => false
            end
          else if String.eqb c "tuple" then
            match vs with
            | Some xs => forallb (slot_is_type well_formed) xs
            | None => false
            end
          else if String.eqb c "union" then
            match os with
            | Some xs => forallb (slot_is_type well_formed) xs
            | None => false
            end
          else if String.eqb c "literal" then
            match d with
            | Prim _ => true
            | _ => false
            end
          else if String.eqb c "type" then slot_is_type well_formed v
          else true
      | _ => false
      end
  end.

(** [no_null_element j]: no array anywhere in [j] has [null] as an
    element ([null] as the value of a property is allowed). *)
Fixpoint no_null_element (j : json) : bool :=
  match j with
  | Prim _ => true
  | Arr xs => forallb (fun x => negb (is_null x) && no_null_element x) xs
  | Obj fs => forallb (fun kv => no_null_element (snd kv)) fs
  end.

(** The name of an entry of [Class.operators]. *)
Definition operator_name (o : Class_.operator) : jsval :=
  match o with
  | Class_.OpMethod m => BasicMember.name (Method.base m)
  | Class_.OpAttribute a => BasicMember.name (Attribute.base a)
  end.

(** [slot_all P v]: [P] holds of the [Type] in [v], if there is one. *)
Definition slot_all {T} (P : T -> Prop) (v : slot T) : Prop :=
  match v with
  | SType t' => P t'
  | SPrim _ => True
  end.

(** [renders ty]: [toString] returns, and what it returns is a string. *)
Definition renders (ty : Type_.t) : Prop :=
  exists s, Type_.toString ty = Ok (Val (Str s)).

(** The body of the loops of [Type]'s constructor and of its [value] test,
    as [Type_.new] has it: an object or array is built, a primitive kept. *)
Definition new_slot (x : json) : slot Type_.t :=
  match x with
  | Prim p => SPrim p
  | _ => SType (Type_.new x)
  end.

Definition new_slots (v : json) : option (list (slot Type_.t)) :=
  match v with
  | Arr xs => Some (map new_slot xs)
  | _ => None
  end.

(** [type_json j]: [j] follows the format of a type in the JSON
    documentation.  It is a name other than the kind names, or an object
    whose [complex_type] is a string and which carries what its kind needs:
    [value] for an array and an alias, a non-empty [key] and [value] for a
    dictionary, the array [values] for a tuple and [options] for a union,
    each of them a name or again such an object; a literal may carry a
    primitive [description]. *)
Fixpoint type_json (j : json) : bool :=
  let slot_json := fun v : json =>
    match v with
    | Prim (Str _) => true
    | Obj _ => type_json v
    | _ => false
    end in
  let has := fun (f : json -> bool) (k : string) (fs : list (string * json)) =>
    match assoc_with f k fs with
    | Some b => b
    | None => false
    end in
  let all_slots := fun v : json =>
    match v with
    | Arr xs => forallb slot_json xs
    | _ => false
    end in
  match j with
  | Prim (Str s) => negb (existsb (String.eqb s) kind_names)
  | Prim _ | Arr _ => false
  | Obj fs =>
      match assoc "complex_type" fs with
      | Some (Prim (Str c)) =>
          if String.eqb c "array" then has slot_json "value" fs
          else if String.eqb c "dictionary" then
            has (fun v => truthy_json v && type_json v) "key" fs
            && has slot_json "value" fs
          else if String.eqb c "tuple" then has all_slots "values" fs
          else if String.eqb c "union" then has all_slots "options" fs
          else if String.eqb c "literal" then
            match assoc "description" fs with
            | Some (Arr _) | Some (Obj _) => false
            | _ => true
            end
          else if String.eqb c "type" then has slot_json "value" fs
          else true
      | _ => false
      end
  end.

(** * Properties *)

(** ** The error monad and the loops *)

Lemma bind_Ok {A B} (r : res A) (k : A -> res B) (b : B) :
  bind r k = Ok b -> exists a, r = Ok a /\ k a = Ok b.
Proof.
  destruct r as [a|]; simpl; intros H; [exists a; auto | discriminate].
Qed.

Lemma mapM_Forall2 {A B} (f : A -> res B) (xs : list A) (ys : list B) :
  Forall2 (fun x y => f x = Ok y) xs ys -> mapM f xs = Ok ys.
Proof.
  induction 1 as [|x y xs ys Hxy _ IH]; simpl; [reflexivity|].
  rewrite Hxy; simpl. rewrite IH; reflexivity.
Qed.

Lemma or_else_falsy (v : jsval) (d : json) :
  truthy v = false -> or_else v d = d.
Proof.
  destruct v as [|j]; simpl; [reflexivity|].
  intros ->; reflexivity.
Qed.

Lemma or_else_truthy (j d : json) :
  truthy_json j = true -> or_else (Val j) d = j.
Proof.
  simpl; intros ->; reflexivity.
Qed.

Lemma or_else_Null_cases (v : jsval) :
  or_else v Null = Null \/ truthy_json (or_else v Null) = true.
Proof.
  destruct v as [|j]; simpl; [left; reflexivity|].
  destruct (truthy_json j) eqn:E; [right; exact E | left; reflexivity].
Qed.

(** The [else] branch of every [Array.isArray] test: the field is [null]. *)
Lemma new_each_not_array {A} (new_C : json -> res A) (v : jsval) :
  not_array v -> new_each new_C v = Ok None.
Proof.
  destruct v as [|[p|xs|fs]]; simpl; intros H; solve [reflexivity | contradiction].
Qed.

(** ** Type *)

Lemma toString_eq (ty : Type_.t) :
  Type_.toString ty =
  match ty with
  | Type_.mk ct k v vs os ff d =>
      is_array <- loose_eq ct "array" ;;
      if is_array then
        sv <- Type_.slot_str v ;;
        Ok (Val (Str (sv ++ "[]")))
      else
      is_dictionary <- loose_eq ct "dictionary" ;;
      if is_dictionary then
        sk <- Type_.str k ;;
        sv <- Type_.slot_str v ;;
        Ok (Val (Str ("table<" ++ sk ++ ", " ++ sv ++ ">")))
      else
      is_tuple <- loose_eq ct "tuple" ;;
      if is_tuple then
        s <- Type_.joined ", " vs ;;
        Ok (Val (Str ("tuple<" ++ s ++ ">")))
      else
      is_union <- loose_eq ct "union" ;;
      if is_union then
        s <- Type_.joined " | " os ;;
        Ok (Val (Str s))
      else
      is_literal <- loose_eq ct "literal" ;;
      if is_literal then
        if String.eqb (Type_.slot_typeof v) "string" then
          if truthy_json d then
            sd <- ToString d ;;
            Ok (Val (Str (literal_open ++ sd ++ dquote)))
          else
            sv <- Type_.slot_str v ;;
            Ok (Val (Str (literal_open ++ sv ++ dquote)))
        else if String.eqb (Type_.slot_typeof v) "number"
                || String.eqb (Type_.slot_typeof v) "boolean" then
          if truthy_json d then
            sd <- ToString d ;;
            Ok (Val (Str (Type_.slot_typeof v ++ " " ++ sd)))
          else
            Ok (Val (Str (Type_.slot_typeof v)))
        else
          Ok (Val (Str "any"))
      else
      is_type <- loose_eq ct "type" ;;
      if is_type then Type_.slot_toString v
      else Ok ct
  end.
Proof.
  destruct ty; reflexivity.
Qed.

Lemma not_kind_name (s : string) :
  ~ In s kind_names ->
  String.eqb s "array" = false /\ String.eqb s "dictionary" = false /\
  String.eqb s "tuple" = false /\ String.eqb s "union" = false /\
  String.eqb s "literal" = false /\ String.eqb s "type" = false.
Proof.
  intros H. repeat split; apply String.eqb_neq; intros ->; apply H;
    unfold kind_names; simpl; tauto.
Qed.

(** What the constructor leaves in [description]: [null], or the truthy
    value the JSON carried. *)
Lemma Type_new_description (j : json) :
  Type_.description (Type_.new j) = Null \/
  truthy_json (Type_.description (Type_.new j)) = true.
Proof.
  destruct j as [[| b | n | s] | xs | fs]; simpl; try (left; reflexivity).
  apply or_else_Null_cases.
Qed.

(** A union renders its options, each already a string, with [" | "]
    between them. *)
Lemma union_toString k v vs ff d (opts : list (slot Type_.t)) (rs : list string) :
  Forall2 (fun o r => Type_.slot_toString o = Ok (Val (Str r))) opts rs ->
  Type_.toString (Type_.mk (Val (Str "union")) k v vs (Some opts) ff d)
  = Ok (Val (Str (join " | " rs))).
Proof.
  intros H. rewrite toString_eq. simpl.
  assert (H1 : mapM Type_.slot_toString opts
               = Ok (map (fun r => Val (Str r)) rs)).
  { apply mapM_Forall2. induction H; simpl; constructor; auto. }
  rewrite H1. simpl.
  assert (H2 : mapM join_elem (map (fun r => Val (Str r)) rs) = Ok rs).
  { apply mapM_Forall2. clear. induction rs; simpl; constructor; auto. }
  rewrite H2. reflexivity.
Qed.

(** C2 (counterexample): the bare string ["array"] is
    stored in [complex_type], where [toString] reads it as the array kind
    and renders the [null] element type: the output is ["null[]"], not
    ["array"]. *)
Lemma shorthand_array_not_round_trip :
  Type_.toString (Type_.new (Prim (Str "array"))) = Ok (Val (Str "null[]")) /\
  Type_.toString (Type_.new (Prim (Str "array"))) <> Ok (Val (Str "array")).
Proof.
  split; [reflexivity | discriminate].
Qed.

(** C2 (amended): for every string [s] other than the six kind names, the
    [Type] built from the bare string [s] renders as [s] unchanged. *)
Theorem shorthand_round_trip (s : string) :
  ~ In s kind_names ->
  Type_.toString (Type_.new (Prim (Str s))) = Ok (Val (Str s)).
Proof.
  intros H. destruct (not_kind_name s H) as (Ha & Hd & Ht & Hu & Hl & Hy).
  rewrite toString_eq. simpl.
  rewrite Ha; simpl. rewrite Hd; simpl. rewrite Ht; simpl.
  rewrite Hu; simpl. rewrite Hl; simpl. rewrite Hy; simpl.
  reflexivity.
Qed.

Lemma shorthand_round_trip_string :
  Type_.toString (Type_.new (Prim (Str "string"))) = Ok (Val (Str "string")).
Proof.
  apply (shorthand_round_trip "string").
  unfold kind_names; simpl.
  intros [H | [H | [H | [H | [H | [H | []]]]]]]; discriminate H.
Defined.

(** C1: a [Type] built by the constructor whose kind is ["literal"] and
    whose value is the string [s] renders as [string], a space, three double
    quotes, the text and one closing double quote; the text is [s] when
    [description] is [null] and the description otherwise (a description
    that is a string is taken as it is).  The literal ["foo"] without
    description renders with the text [foo]. *)
Theorem literal_string_toString (j : json) (s : string) :
  Type_.complex_type (Type_.new j) = Val (Str "literal") ->
  Type_.value (Type_.new j) = SPrim (Str s) ->
  (Type_.description (Type_.new j) = Null ->
   Type_.toString (Type_.new j) = Ok (Val (Str (literal_open ++ s ++ dquote)))) /\
  (Type_.description (Type_.new j) <> Null ->
   Type_.toString (Type_.new j) =
   (text <- ToString (Type_.description (Type_.new j)) ;;
    Ok (Val (Str (literal_open ++ text ++ dquote))))) /\
  (forall text, Type_.description (Type_.new j) = Str text ->
   Type_.toString (Type_.new j) = Ok (Val (Str (literal_open ++ text ++ dquote)))) /\
  Type_.toString (Type_.new (Obj [("complex_type", Prim (Str "literal"));
                                  ("value", Prim (Str "foo"))]))
  = Ok (Val (Str ("string " ++ dquote ++ dquote ++ dquote ++ "foo" ++ dquote))).
Proof.
  intros Hct Hv.
  pose proof (Type_new_description j) as Hd.
  rewrite toString_eq.
  destruct (Type_.new j) as [ct k v vs os ff d]; simpl in Hct, Hv, Hd |- *.
  subst ct v. cbn [loose_eq String.eqb Ascii.eqb Bool.eqb bind Type_.slot_typeof typeof_prim].
  repeat split.
  - intros ->. reflexivity.
  - intros Hn. destruct Hd as [Hd | Hd]; [contradiction | rewrite Hd; reflexivity].
  - intros text ->. destruct Hd as [Hd | Hd]; [discriminate | rewrite Hd; reflexivity].
Qed.

Lemma literal_string_toString_foo :
  Type_.toString (Type_.new (Obj [("complex_type", Prim (Str "literal"));
                                  ("value", Prim (Str "foo"))]))
  = Ok (Val (Str (literal_open ++ "foo" ++ dquote))).
Proof.
  apply (proj1 (literal_string_toString
                  (Obj [("complex_type", Prim (Str "literal"));
                        ("value", Prim (Str "foo"))]) "foo" eq_refl eq_refl)).
  reflexivity.
Defined.

(** C3: a union whose options render to the strings [r1 ... rn] renders as
    those strings joined with [" | "], with nothing wrapped around them; a
    union that is itself an option of a union therefore flattens:
    [union [A; union [B; C]]] renders as [a | b | c]. *)
Theorem union_toString_flat k v vs ff d :
  (forall (opts : list (slot Type_.t)) (rs : list string),
     opts <> [] ->
     Forall2 (fun o r => Type_.slot_toString o = Ok (Val (Str r))) opts rs ->
     Type_.toString (Type_.mk (Val (Str "union")) k v vs (Some opts) ff d)
     = Ok (Val (Str (join " | " rs)))) /\
  (forall (A B C : slot Type_.t) (a b c : string) k' v' vs' ff' d',
     Type_.slot_toString A = Ok (Val (Str a)) ->
     Type_.slot_toString B = Ok (Val (Str b)) ->
     Type_.slot_toString C = Ok (Val (Str c)) ->
     Type_.toString
       (Type_.mk (Val (Str "union")) k v vs
          (Some [A; SType (Type_.mk (Val (Str "union")) k' v' vs'
                             (Some [B; C]) ff' d')]) ff d)
     = Ok (Val (Str (a ++ " | " ++ b ++ " | " ++ c)))).
Proof.
  split.
  - intros opts rs _ H. apply union_toString; exact H.
  - intros A B C a b c k' v' vs' ff' d' HA HB HC.
    rewrite (union_toString k v vs ff d _ [a; b ++ " | " ++ c]).
    + reflexivity.
    + constructor; [exact HA|]. constructor; [|constructor].
      change (Type_.toString (Type_.mk (Val (Str "union")) k' v' vs'
                                (Some [B; C]) ff' d')
              = Ok (Val (Str (join " | " [b; c])))).
      apply union_toString. repeat constructor; assumption.
Qed.

Lemma union_toString_flat_example :
  Type_.toString
    (Type_.new (Obj [("complex_type", Prim (Str "union"));
                     ("options",
                      Arr [Prim (Str "A");
                           Obj [("complex_type", Prim (Str "union"));
                                ("options", Arr [Prim (Str "B"); Prim (Str "C")])]])]))
  = Ok (Val (Str ("A" ++ " | " ++ "B" ++ " | " ++ "C"))).
Proof.
  apply (proj2 (union_toString_flat None (SPrim Null) None Null Null)
           (SPrim (Str "A")) (SPrim (Str "B")) (SPrim (Str "C")) "A" "B" "C");
    reflexivity.
Defined.

(** ** Strings: first line and stripping *)

Lemma app_assoc_str (a b c : string) : (a ++ b) ++ c = a ++ b ++ c.
Proof.
  induction a as [|x a IH]; simpl; [reflexivity | now rewrite IH].
Qed.

Lemma split_at_first (sep : ascii) (a b : string) :
  contains_char sep a = false ->
  split sep (a ++ String sep b) = a :: split sep b.
Proof.
  induction a as [|c a IH]; simpl.
  - intros _. now rewrite Ascii.eqb_refl.
  - intros H. apply orb_false_iff in H as [Hc Ha].
    rewrite Hc, (IH Ha). reflexivity.
Qed.

Lemma split_no_sep (sep : ascii) (a : string) :
  contains_char sep a = false -> split sep a = [a].
Proof.
  induction a as [|c a IH]; simpl; [reflexivity|].
  intros H. apply orb_false_iff in H as [Hc Ha].
  rewrite Hc, (IH Ha). reflexivity.
Qed.

(** [first_line] is the text before the first newline, or the whole text
    when there is none. *)
Lemma first_line_before_newline (a b : string) :
  contains_char newline a = false ->
  first_line (a ++ String newline b) = a.
Proof.
  intros H. unfold first_line. now rewrite split_at_first.
Qed.

Lemma first_line_single (a : string) :
  contains_char newline a = false -> first_line a = a.
Proof.
  intros H. unfold first_line. now rewrite split_no_sep.
Qed.

Lemma prefix_occurs (pat s : string) :
  occurs pat s = false -> String.prefix pat s = false.
Proof.
  destruct s; simpl; [auto|]. intros H.
  apply orb_false_iff in H as [H _]. exact H.
Qed.

(** Text in which the pattern does not occur is left as it is. *)
Lemma replaceAll_absent (pat rep s : string) :
  occurs pat s = false -> replaceAll pat rep s = s.
Proof.
  unfold replaceAll. induction s as [|c s IH]; [reflexivity|].
  intros H. pose proof (prefix_occurs _ _ H) as Hp.
  simpl in H. apply orb_false_iff in H as [_ Hs].
  simpl replaceAll_from. simpl in Hp. rewrite Hp, (IH Hs). reflexivity.
Qed.

(** A leading [defines.] is dropped. *)
Lemma replaceAll_defines_prefix (r : string) :
  replaceAll "defines." "" ("defines." ++ r) = replaceAll "defines." "" r.
Proof.
  unfold replaceAll. simpl.
  destruct r; reflexivity.
Qed.

(** ** DefineValue *)

Lemma DefineValue_toField_strings (d : DefineValue.t) (n desc : string) :
  DefineValue.name d = Val (Str n) ->
  DefineValue.description d = Val (Str desc) ->
  DefineValue.toField d
  = Ok ("---@field " ++ n ++ " " ++ dquote ++ n ++ dquote ++ first_line desc).
Proof.
  intros Hn Hd. unfold DefineValue.toField. rewrite Hn, Hd. reflexivity.
Qed.

(** C4 (the code at the failing input): for the define value [north] with
    description [North], [toField] puts the description right after the
    closing quote of the type segment, with no space between them; the
    declaration with the separator is a different string. *)
Lemma DefineValue_toField_no_separator :
  (d <- DefineValue.new (Obj [("name", Prim (Str "north"));
                              ("order", Prim (Num 0));
                              ("description", Prim (Str "North"))]) ;;
   DefineValue.toField d)
  = Ok ("---@field north " ++ dquote ++ "north" ++ dquote ++ "North") /\
  "---@field north " ++ dquote ++ "north" ++ dquote ++ "North"
  <> "---@field north " ++ dquote ++ "north" ++ dquote ++ " " ++ "North".
Proof.
  split; [reflexivity | discriminate].
Qed.

(** C9: [DefineValue.toField] returns only when [description] is a string;
    the constructor copies [json.description] as it is, so a define value
    built from JSON without [description] holds [undefined] there and
    [toField] throws, whereas [BasicMember] stores the empty string for a
    missing description. *)
Theorem DefineValue_toField_needs_description :
  (forall (d : DefineValue.t) (s : string),
     DefineValue.toField d = Ok s ->
     exists desc, DefineValue.description d = Val (Str desc)) /\
  (forall (j : json) (d : DefineValue.t) (s : string),
     DefineValue.new j = Ok d ->
     DefineValue.toField d = Ok s ->
     exists desc, field j "description" = Val (Str desc)) /\
  (forall j : json,
     is_null j = false ->
     field j "description" = Undefined ->
     exists d, DefineValue.new j = Ok d /\
               DefineValue.description d = Undefined /\
               DefineValue.toField d = TypeError) /\
  (forall (j : json) (m : BasicMember.t),
     field j "description" = Undefined ->
     BasicMember.new j = Ok m ->
     BasicMember.description m = Str "").
Proof.
  assert (Hrec : forall (d : DefineValue.t) (s : string),
            DefineValue.toField d = Ok s ->
            exists desc, DefineValue.description d = Val (Str desc)).
  { intros d s H. unfold DefineValue.toField in H.
    apply bind_Ok in H as (fl & Hfl & _).
    destruct (DefineValue.description d) as [|[[| b | n | desc] | xs | fs]];
      simpl in Hfl; try discriminate.
    exists desc; reflexivity. }
  repeat apply conj.
  - exact Hrec.
  - intros j d s Hnew H. apply Hrec in H as (desc & H). exists desc.
    unfold DefineValue.new in Hnew. destruct (is_null j); [discriminate|].
    injection Hnew as <-. exact H.
  - intros j Hj Hd. unfold DefineValue.new. rewrite Hj.
    eexists; split; [reflexivity|]. simpl. rewrite Hd.
    split; reflexivity.
  - intros j m Hd H. unfold BasicMember.new in H.
    destruct (is_null j); [discriminate|].
    apply bind_Ok in H as (imgs & _ & H). injection H as <-.
    simpl. rewrite Hd. reflexivity.
Qed.

Lemma DefineValue_toField_needs_description_witness :
  exists d, DefineValue.new (Obj [("name", Prim (Str "north"))]) = Ok d /\
            DefineValue.description d = Undefined /\
            DefineValue.toField d = TypeError.
Proof.
  apply (proj1 (proj2 (proj2 DefineValue_toField_needs_description))
           (Obj [("name", Prim (Str "north"))])); reflexivity.
Defined.

(** ** BasicMember *)

(** [BasicMember]'s constructor returns whenever [json] is not [null] and
    [json.images] is not an array. *)
Lemma BasicMember_new_no_images (j : json) :
  is_null j = false ->
  not_array (field j "images") ->
  BasicMember.new j
  = Ok {| BasicMember.name := field j "name";
          BasicMember.order := field j "order";
          BasicMember.description := or_else (field j "description") (Str "");
          BasicMember.lists := or_else (field j "lists") Null;
          BasicMember.examples := or_else (field j "examples") Null;
          BasicMember.images := None |}.
Proof.
  intros Hj Hi. unfold BasicMember.new. rewrite Hj.
  rewrite (new_each_not_array _ _ Hi). reflexivity.
Qed.

(** C8 (counterexample): [lists] is expected to be an
    array; given the string ["oops"] instead, the constructor returns and
    stores that very string, not [null]. *)
Lemma lists_wrong_shape_is_kept :
  exists m,
    BasicMember.new (Obj [("name", Prim (Str "x"));
                          ("lists", Prim (Str "oops"))]) = Ok m /\
    not_array (Val (Str "oops")) /\
    BasicMember.lists m = Str "oops" /\
    BasicMember.lists m <> Null.
Proof.
  eexists; split; [reflexivity|]. simpl.
  repeat split; discriminate.
Qed.

(** ** Method *)

Lemma param_text_strings (p : Parameter_.t) (pn r : string) (ty : Type_.t) :
  Parameter_.name p = Val (Str pn) ->
  Parameter_.type p = Some ty ->
  Type_.toString ty = Ok (Val (Str r)) ->
  Method.param_text p = Ok (param_sig (pn, r)).
Proof.
  intros Hn Ht Hr. unfold Method.param_text. rewrite Ht, Hr, Hn. reflexivity.
Qed.

(** The loop appends to [params] the texts joined by [", "]. *)
Lemma params_loop_join (ps : list Parameter_.t) (texts : list string) :
  Forall2 (fun p txt => Method.param_text p = Ok txt) ps texts ->
  forall acc, Method.params_loop ps acc = Ok (acc ++ join ", " texts).
Proof.
  induction 1 as [|p txt ps texts Hp Hrest IH]; intros acc; simpl.
  - f_equal. induction acc; simpl; congruence.
  - rewrite Hp. simpl. destruct Hrest as [|p' txt' ps' texts' Hp' Hrest'].
    + reflexivity.
    + rewrite IH. f_equal. now rewrite !app_assoc_str.
Qed.

(** C5: for a method named [n] with description [d] whose parameters have
    the names [pn] and types rendering as [r], [toField] is [---@field n],
    then [fun(] with the texts [pn:r'] joined by a comma and a space, then
    [)], a space and the first line of [d], where [r'] is [r] with every
    [defines.] removed; a leading [defines.] is thereby stripped, and the
    parameter [a] of type [defines.direction] gives [fun(a:direction)]. *)
Theorem Method_toField_signature :
  (forall (m : Method.t) (n d : string) (ps : list Parameter_.t)
          (sig : list (string * string)),
     BasicMember.name (Method.base m) = Val (Str n) ->
     BasicMember.description (Method.base m) = Str d ->
     Method.parameters m = Some ps ->
     Forall2 (fun p s =>
                Parameter_.name p = Val (Str (fst s)) /\
                exists ty, Parameter_.type p = Some ty /\
                           Type_.toString ty = Ok (Val (Str (snd s)))) ps sig ->
     Method.toField m
     = Ok ("---@field " ++ n ++ " fun(" ++ join ", " (map param_sig sig)
           ++ ") " ++ first_line d)) /\
  (forall pn r : string,
     occurs "defines." r = false ->
     param_sig (pn, "defines." ++ r) = pn ++ ":" ++ r) /\
  (m <- Method.new (Obj [("name", Prim (Str "f"));
                         ("description", Prim (Str "Moves."));
                         ("parameters",
                          Arr [Obj [("name", Prim (Str "a"));
                                    ("type", Prim (Str "defines.direction"))]])]) ;;
   Method.toField m)
  = Ok "---@field f fun(a:direction) Moves.".
Proof.
  split; [|split].
  - intros m n d ps sig Hn Hd Hps Hsig. unfold Method.toField.
    rewrite Hd, Hps, Hn. simpl split_first_line. simpl bind at 1.
    rewrite (params_loop_join ps (map param_sig sig)).
    + reflexivity.
    + clear - Hsig. induction Hsig as [|p [pn r] ps sig [Hn (ty & Ht & Hr)] _ IH];
        simpl; constructor; [|exact IH].
      now apply param_text_strings with (ty := ty).
  - intros pn r H. unfold param_sig. cbn [fst snd].
    now rewrite replaceAll_defines_prefix, replaceAll_absent.
  - reflexivity.
Qed.

Lemma Method_toField_signature_witness :
  Method.toField
    {| Method.base :=
         {| BasicMember.name := Val (Str "f");
            BasicMember.order := Undefined;
            BasicMember.description := Str "Moves.";
            BasicMember.lists := Null;
            BasicMember.examples := Null;
            BasicMember.images := None |};
       Method.visibility := Null;
       Method.raises := None;
       Method.subclasses := Null;
       Method.parameters :=
         Some [ {| Parameter_.name := Val (Str "a");
                   Parameter_.order := Undefined;
                   Parameter_.description := Undefined;
                   Parameter_.type := Some (Type_.new (Prim (Str "defines.direction")));
                   Parameter_.optional := Bool false |} ];
       Method.variant_parameter_groups := None;
       Method.variant_parameter_description := Null;
       Method.variadic_parameter := None;
       Method.format := None;
       Method.return_values := None |}
  = Ok ("---@field " ++ "f" ++ " fun("
        ++ join ", " (map param_sig [("a", "defines.direction")])
        ++ ") " ++ first_line "Moves.").
Proof.
  match goal with
  | |- Method.toField ?m = _ =>
      apply (proj1 Method_toField_signature m "f" "Moves." _
               [("a", "defines.direction")] eq_refl eq_refl eq_refl)
  end.
  constructor; [|constructor]. split; [reflexivity|].
  eexists; split; reflexivity.
Defined.

(** ** Attribute *)

Lemma Attribute_new_Ok (j : json) (a : Attribute.t) :
  Attribute.new j = Ok a ->
  BasicMember.new j = Ok (Attribute.base a) /\
  Attribute.read_type a = Type_.new_if_truthy (field j "read_type") /\
  Attribute.write_type a = Type_.new_if_truthy (field j "write_type").
Proof.
  unfold Attribute.new. intros H.
  apply bind_Ok in H as (b & Hb & H).
  apply bind_Ok in H as (rs & _ & H). injection H as <-.
  repeat split; assumption.
Qed.

Lemma Attribute_new_succeeds (j : json) :
  is_null j = false ->
  not_array (field j "images") ->
  not_array (field j "raises") ->
  succeeds (Attribute.new j).
Proof.
  intros Hj Hi Hr. unfold Attribute.new.
  rewrite (BasicMember_new_no_images j Hj Hi). simpl.
  rewrite (new_each_not_array _ _ Hr). eexists; reflexivity.
Qed.

(** C6: the type segment [typeStr] of [Attribute.toField] is the rendered
    read type, [" | "] and the rendered write type when both are present,
    the one rendered type when only one is, and [any] when neither is;
    [toField] places it between the name and the first line of the
    description; an attribute built from a JSON object that carries
    [write_type] and no [read_type] has the rendered write type alone. *)
Theorem Attribute_type_segment :
  (forall (a : Attribute.t) (r w : Type_.t) (sr sw : string),
     Attribute.read_type a = Some r ->
     Attribute.write_type a = Some w ->
     Type_.toString r = Ok (Val (Str sr)) ->
     Type_.toString w = Ok (Val (Str sw)) ->
     Attribute.typeStr a = Ok (Val (Str (sr ++ " | " ++ sw)))) /\
  (forall (a : Attribute.t) (r : Type_.t),
     Attribute.read_type a = Some r ->
     Attribute.write_type a = None ->
     Attribute.typeStr a = Type_.toString r) /\
  (forall (a : Attribute.t) (w : Type_.t),
     Attribute.read_type a = None ->
     Attribute.write_type a = Some w ->
     Attribute.typeStr a = Type_.toString w) /\
  (forall a : Attribute.t,
     Attribute.read_type a = None ->
     Attribute.write_type a = None ->
     Attribute.typeStr a = Ok (Val (Str "any"))) /\
  (forall (a : Attribute.t) (n d seg : string),
     BasicMember.name (Attribute.base a) = Val (Str n) ->
     BasicMember.description (Attribute.base a) = Str d ->
     Attribute.typeStr a = Ok (Val (Str seg)) ->
     Attribute.toField a
     = Ok ("---@field " ++ n ++ " " ++ seg ++ " " ++ first_line d)) /\
  (forall (fs : list (string * json)) (w : json),
     field (Obj fs) "read_type" = Undefined ->
     field (Obj fs) "write_type" = Val w ->
     truthy_json w = true ->
     (forall a, Attribute.new (Obj fs) = Ok a ->
                Attribute.typeStr a = Type_.toString (Type_.new w)) /\
     (not_array (field (Obj fs) "images") ->
      not_array (field (Obj fs) "raises") ->
      succeeds (Attribute.new (Obj fs)))).
Proof.
  repeat apply conj.
  - intros a r w sr sw Hr Hw Hsr Hsw. unfold Attribute.typeStr.
    rewrite Hr, Hw, Hsr, Hsw. reflexivity.
  - intros a r Hr Hw. unfold Attribute.typeStr. now rewrite Hr, Hw.
  - intros a w Hr Hw. unfold Attribute.typeStr. now rewrite Hr, Hw.
  - intros a Hr Hw. unfold Attribute.typeStr. now rewrite Hr, Hw.
  - intros a n d seg Hn Hd Hseg. unfold Attribute.toField.
    rewrite Hd, Hseg, Hn. reflexivity.
  - intros fs w Hr Hw Ht. split.
    + intros a Ha. apply Attribute_new_Ok in Ha as (_ & Har & Haw).
      unfold Attribute.typeStr. rewrite Har, Haw, Hr, Hw. simpl.
      rewrite Ht. reflexivity.
    + intros Hi Hra. now apply Attribute_new_succeeds.
Qed.

Lemma Attribute_type_segment_witness :
  exists a,
    Attribute.new (Obj [("name", Prim (Str "speed"));
                        ("description", Prim (Str "Speed."));
                        ("write_type", Prim (Str "double"))]) = Ok a /\
    Attribute.typeStr a = Type_.toString (Type_.new (Prim (Str "double"))) /\
    Attribute.toField a = Ok "---@field speed double Speed.".
Proof.
  destruct Attribute_type_segment as (_ & _ & _ & _ & Hfield & Hjson).
  destruct (Hjson [("name", Prim (Str "speed"));
                   ("description", Prim (Str "Speed."));
                   ("write_type", Prim (Str "double"))]
                  (Prim (Str "double")) eq_refl eq_refl eq_refl)
    as (Hseg & _).
  eexists. split; [reflexivity|]. split.
  - apply Hseg. reflexivity.
  - apply (Hfield _ "speed" "Speed." "double"); reflexivity.
Defined.

(** ** Class *)

Lemma bind_ret {A} (r : res A) : (x <- r ;; Ok x) = r.
Proof. destruct r; reflexivity. Qed.

Lemma bind_bind {A B C} (r : res A) (f : A -> res B) (g : B -> res C) :
  (y <- (x <- r ;; f x) ;; g y) = (x <- r ;; y <- f x ;; g y).
Proof. destruct r; reflexivity. Qed.

Lemma operator_of_named (op : json) :
  is_null op = false ->
  is_operator_name op = true ->
  Class_.operator_of op = (x <- operator_build op ;; Ok (Some x)).
Proof.
  intros Hn Hop. unfold Class_.operator_of, operator_build, exposes_signature.
  rewrite Hn. unfold is_operator_name in Hop. rewrite Hop.
  destruct (truthy (field op "parameters") || truthy (field op "return_values"));
    rewrite bind_bind; reflexivity.
Qed.

Lemma operator_of_other (op : json) :
  is_null op = false ->
  is_operator_name op = false ->
  Class_.operator_of op = Ok None.
Proof.
  intros Hn Hop. unfold Class_.operator_of.
  rewrite Hn. unfold is_operator_name in Hop. rewrite Hop. reflexivity.
Qed.

(** The loop of the constructor computes the list the specification
    describes. *)
Lemma operators_loop_spec (ops : list json) :
  Forall (fun op => is_null op = false) ops ->
  Class_.operators_loop ops = operators_spec ops.
Proof.
  unfold operators_spec.
  induction 1 as [|op ops Hop _ IH]; simpl; [reflexivity|].
  destruct (is_operator_name op) eqn:E.
  - rewrite (operator_of_named op Hop E), IH. simpl.
    rewrite bind_bind. reflexivity.
  - rewrite (operator_of_other op Hop E), IH. simpl. apply bind_ret.
Qed.

Lemma Class_new_Ok (fs : list (string * json)) (ops : list json) (c : Class_.t) :
  field (Obj fs) "operators" = Val (Arr ops) ->
  Class_.new (Obj fs) = Ok c ->
  exists os, Class_.operators c = Some os /\ Class_.operators_loop ops = Ok os.
Proof.
  intros Hops H. unfold Class_.new in H. rewrite Hops in H.
  apply bind_Ok in H as (b & _ & H).
  apply bind_Ok in H as (ms & _ & H).
  apply bind_Ok in H as (ats & _ & H).
  apply bind_Ok in H as (os' & Hos & H). injection H as <-.
  apply bind_Ok in Hos as (os & Hos & E). injection E as <-.
  exists os. split; [reflexivity | exact Hos].
Qed.

(** C7: when [operators] is an array of operator objects, the constructor's
    loop yields, in input order, exactly the entries named [call], [index]
    or [length], each built as a [Method] if it exposes [parameters] or
    [return_values] and as an [Attribute] otherwise; entries with any other
    name are not in the list.  That list is the [operators] field of the
    class, and the class is built whenever its parts are. *)
Theorem Class_operators_classified :
  (forall ops : list json,
     Forall (fun op => is_null op = false) ops ->
     Class_.operators_loop ops = operators_spec ops) /\
  (forall (fs : list (string * json)) (ops : list json) (c : Class_.t),
     field (Obj fs) "operators" = Val (Arr ops) ->
     Forall (fun op => is_null op = false) ops ->
     Class_.new (Obj fs) = Ok c ->
     exists os, Class_.operators c = Some os /\ operators_spec ops = Ok os) /\
  (forall (fs : list (string * json)) (ops : list json) (os : list Class_.operator),
     field (Obj fs) "operators" = Val (Arr ops) ->
     Forall (fun op => is_null op = false) ops ->
     operators_spec ops = Ok os ->
     not_array (field (Obj fs) "images") ->
     not_array (field (Obj fs) "methods") ->
     not_array (field (Obj fs) "attributes") ->
     exists c, Class_.new (Obj fs) = Ok c /\ Class_.operators c = Some os).
Proof.
  repeat apply conj.
  - exact operators_loop_spec.
  - intros fs ops c Hops Hnn Hc.
    destruct (Class_new_Ok fs ops c Hops Hc) as (os & Ho & Hl).
    exists os. split; [exact Ho|]. now rewrite <- operators_loop_spec.
  - intros fs ops os Hops Hnn Hspec Hi Hm Ha. unfold Class_.new.
    rewrite Hops, (operators_loop_spec ops Hnn), Hspec.
    rewrite (BasicMember_new_no_images (Obj fs) eq_refl Hi). cbn [bind].
    rewrite (new_each_not_array Method.new _ Hm). cbn [bind].
    rewrite (new_each_not_array Attribute.new _ Ha). cbn [bind].
    eexists; split; reflexivity.
Qed.

Lemma Class_operators_classified_witness :
  exists c m a,
    Class_.new
      (Obj [("name", Prim (Str "LuaCustomTable"));
            ("operators",
             Arr [Obj [("name", Prim (Str "call")); ("parameters", Arr [])];
                  Obj [("name", Prim (Str "concat"))];
                  Obj [("name", Prim (Str "length"))]])]) = Ok c /\
    Class_.operators c = Some [Class_.OpMethod m; Class_.OpAttribute a].
Proof.
  destruct (proj2 (proj2 Class_operators_classified)
              [("name", Prim (Str "LuaCustomTable"));
               ("operators",
                Arr [Obj [("name", Prim (Str "call")); ("parameters", Arr [])];
                     Obj [("name", Prim (Str "concat"))];
                     Obj [("name", Prim (Str "length"))]])]
              _ _ eq_refl
              ltac:(repeat constructor)
              eq_refl I I I) as (c & Hc & Ho).
  exists c. eexists. eexists. split; [exact Hc | exact Ho].
Defined.

(** ** Falsy values and [||] *)

Lemma Prototype_new_Ok (j : json) (p : Prototype.t) :
  Prototype.new j = Ok p ->
  Prototype.instance_limit p = or_else (field j "instance_limit") Null.
Proof.
  unfold Prototype.new. intros H.
  apply bind_Ok in H as (b & _ & H).
  apply bind_Ok in H as (props & _ & H). injection H as <-.
  reflexivity.
Qed.

Lemma Prototype_new_succeeds (j : json) :
  is_null j = false ->
  not_array (field j "images") ->
  not_array (field j "properties") ->
  succeeds (Prototype.new j).
Proof.
  intros Hj Hi Hp. unfold Prototype.new.
  rewrite (BasicMember_new_no_images j Hj Hi). cbn [bind].
  rewrite (new_each_not_array _ _ Hp). eexists; reflexivity.
Qed.

(** C10: a falsy value given for an optional scalar field is stored as
    [null], exactly as when the field is absent: [full_format: false] in a
    [Type], [instance_limit: 0] in a [Prototype], [takes_optional: false]
    in a [MethodFormat]; any falsy value ([false], [0], the empty string,
    [null]) does the same, since [v || null] is [null] for every falsy
    [v]. *)
Theorem falsy_field_stored_as_null :
  (forall (v : jsval), truthy v = false -> or_else v Null = or_else Undefined Null) /\
  (truthy (Val (Bool false)) = false /\ truthy (Val (Num 0)) = false /\
   truthy (Val (Str "")) = false /\ truthy (Val Null) = false) /\
  (forall fs : list (string * json),
     field (Obj fs) "full_format" = Val (Bool false) \/
     field (Obj fs) "full_format" = Undefined ->
     Type_.full_format (Type_.new (Obj fs)) = Null) /\
  (forall (fs : list (string * json)) (p : Prototype.t),
     field (Obj fs) "instance_limit" = Val (Num 0) \/
     field (Obj fs) "instance_limit" = Undefined ->
     Prototype.new (Obj fs) = Ok p ->
     Prototype.instance_limit p = Null) /\
  (forall (fs : list (string * json)),
     not_array (field (Obj fs) "images") ->
     not_array (field (Obj fs) "properties") ->
     succeeds (Prototype.new (Obj fs))) /\
  (forall fs : list (string * json),
     field (Obj fs) "takes_optional" = Val (Bool false) \/
     field (Obj fs) "takes_optional" = Undefined ->
     exists m, MethodFormat.new (Obj fs) = Ok m /\
               MethodFormat.takes_optional m = Null).
Proof.
  repeat apply conj; try reflexivity.
  - intros v Hv. now rewrite or_else_falsy.
  - intros fs [H | H]; simpl in H |- *; now rewrite H.
  - intros fs p H Hp. rewrite (Prototype_new_Ok _ _ Hp).
    destruct H as [H | H]; now rewrite H.
  - intros fs Hi Hp. now apply Prototype_new_succeeds.
  - intros fs H. eexists; split; [reflexivity|]. simpl.
    destruct H as [H | H]; simpl in H; now rewrite H.
Qed.

Lemma falsy_field_stored_as_null_witness :
  Type_.full_format
    (Type_.new (Obj [("complex_type", Prim (Str "union"));
                     ("options", Arr [Prim (Str "a"); Prim (Str "b")]);
                     ("full_format", Prim (Bool false))])) = Null /\
  (exists p,
     Prototype.new (Obj [("name", Prim (Str "boiler"));
                         ("instance_limit", Prim (Num 0))]) = Ok p /\
     Prototype.instance_limit p = Null) /\
  (exists m,
     MethodFormat.new (Obj [("takes_table", Prim (Bool true));
                            ("takes_optional", Prim (Bool false))]) = Ok m /\
     MethodFormat.takes_optional m = Null).
Proof.
  destruct falsy_field_stored_as_null as (_ & _ & HT & HP & _ & HM).
  repeat apply conj.
  - apply HT. left; reflexivity.
  - eexists. split; [reflexivity|].
    apply (HP [("name", Prim (Str "boiler")); ("instance_limit", Prim (Num 0))]);
      [left; reflexivity | reflexivity].
  - apply HM. left; reflexivity.
Defined.

(** * Further properties of the classes *)

(** ** Induction on nested types *)

Lemma Type_nested_ind (P : Type_.t -> Prop) :
  (forall ct k v vs os ff d,
     match k with Some k' => P k' | None => True end ->
     slot_all P v ->
     match vs with Some xs => Forall (slot_all P) xs | None => True end ->
     match os with Some xs => Forall (slot_all P) xs | None => True end ->
     P (Type_.mk ct k v vs os ff d)) ->
  forall ty, P ty.
Proof.
  intros H. fix IH 1. intros [ct k v vs os ff d].
  assert (Hslot : forall x : slot Type_.t, slot_all P x).
  { intros [t'|p]; simpl; [apply IH | exact I]. }
  assert (Hlist : forall xs : list (slot Type_.t), Forall (slot_all P) xs).
  { induction xs as [|x xs IHxs]; constructor; [apply Hslot | exact IHxs]. }
  apply H.
  - destruct k as [k'|]; [apply IH | exact I].
  - apply Hslot.
  - destruct vs as [xs|]; [apply Hlist | exact I].
  - destruct os as [xs|]; [apply Hlist | exact I].
Qed.

(** ** Rendering well-formed types *)

Lemma joined_strings (sep : string) (xs : list (slot Type_.t)) (rs : list string) :
  Forall2 (fun o r => Type_.slot_toString o = Ok (Val (Str r))) xs rs ->
  Type_.joined sep (Some xs) = Ok (join sep rs).
Proof.
  intros H. unfold Type_.joined.
  rewrite (mapM_Forall2 _ xs (map (fun r => Val (Str r)) rs)).
  - cbn [bind]. rewrite (mapM_Forall2 _ _ rs); [reflexivity|].
    clear. induction rs; simpl; constructor; auto.
  - induction H; simpl; constructor; auto.
Qed.

Lemma slot_is_type_renders (v : slot Type_.t) :
  slot_all (fun t' => well_formed t' = true -> renders t') v ->
  slot_is_type well_formed v = true ->
  exists s, Type_.slot_toString v = Ok (Val (Str s)) /\ Type_.slot_str v = Ok s.
Proof.
  destruct v as [t'|[| b | n | s]]; simpl; intros IH Hwf; try discriminate.
  - destruct (IH Hwf) as (s & Hs). exists s. rewrite Hs. split; reflexivity.
  - exists s. split; reflexivity.
Qed.

Lemma slots_are_types_render (xs : list (slot Type_.t)) :
  Forall (slot_all (fun t' => well_formed t' = true -> renders t')) xs ->
  forallb (slot_is_type well_formed) xs = true ->
  exists rs, Forall2 (fun o r => Type_.slot_toString o = Ok (Val (Str r))) xs rs.
Proof.
  induction 1 as [|x xs Hx _ IH]; simpl; intros Hwf.
  - exists []. constructor.
  - apply andb_true_iff in Hwf as [Hx' Hxs].
    destruct (slot_is_type_renders x Hx Hx') as (s & Hs & _).
    destruct (IH Hxs) as (rs & Hrs).
    exists (s :: rs). constructor; assumption.
Qed.

Lemma well_formed_toString (ty : Type_.t) :
  well_formed ty = true -> renders ty.
Proof.
  induction ty as [ct k v vs os ff d IHk IHv IHvs IHos] using Type_nested_ind.
  intros Hwf. unfold renders. rewrite toString_eq.
  destruct ct as [|[[| b | n | c] | xs | fs]]; try discriminate Hwf.
  cbn [well_formed] in Hwf. cbn [loose_eq bind].
  destruct (String.eqb c "array").
  { destruct (slot_is_type_renders v IHv Hwf) as (s & _ & Hs).
    rewrite Hs. eexists; reflexivity. }
  destruct (String.eqb c "dictionary").
  { destruct k as [k'|]; [|discriminate].
    apply andb_true_iff in Hwf as [Hk Hv].
    destruct (IHk Hk) as (sk & Hsk).
    destruct (slot_is_type_renders v IHv Hv) as (s & _ & Hs).
    unfold Type_.str. rewrite Hsk, Hs. eexists; reflexivity. }
  destruct (String.eqb c "tuple").
  { destruct vs as [xs|]; [|discriminate].
    destruct (slots_are_types_render xs IHvs Hwf) as (rs & Hrs).
    rewrite (joined_strings _ _ _ Hrs). eexists; reflexivity. }
  destruct (String.eqb c "union").
  { destruct os as [xs|]; [|discriminate].
    destruct (slots_are_types_render xs IHos Hwf) as (rs & Hrs).
    rewrite (joined_strings _ _ _ Hrs). eexists; reflexivity. }
  destruct (String.eqb c "literal").
  { destruct d as [p | |]; try discriminate.
    destruct (truthy_json (Prim p));
      destruct v as [t'|[| b | n | s]]; cbn; eexists; reflexivity. }
  destruct (String.eqb c "type").
  { destruct (slot_is_type_renders v IHv Hwf) as (s & Hs & _).
    rewrite Hs. eexists; reflexivity. }
  eexists; reflexivity.
Qed.

(** X1: [toString] never throws on a well-formed [Type], and what it
    returns is a string, at every depth of nesting. *)
Theorem well_formed_renders (ty : Type_.t) :
  well_formed ty = true ->
  exists s, Type_.toString ty = Ok (Val (Str s)).
Proof.
  exact (well_formed_toString ty).
Qed.

Lemma well_formed_renders_witness :
  renders (Type_.new
             (Obj [("complex_type", Prim (Str "dictionary"));
                   ("key", Prim (Str "string"));
                   ("value",
                    Obj [("complex_type", Prim (Str "array"));
                         ("value",
                          Obj [("complex_type", Prim (Str "tuple"));
                               ("values", Arr [Prim (Str "uint");
                                               Obj [("complex_type", Prim (Str "literal"));
                                                    ("value", Prim (Num 5))]])])])])).
Proof.
  apply well_formed_renders. reflexivity.
Defined.

(** ** Types built from JSON *)

Lemma json_nested_ind (P : json -> Prop) :
  (forall p, P (Prim p)) ->
  (forall xs, Forall P xs -> P (Arr xs)) ->
  (forall fs, Forall (fun kv => P (snd kv)) fs -> P (Obj fs)) ->
  forall j, P j.
Proof.
  intros HP HA HO. fix IH 1. intros [p | xs | fs].
  - apply HP.
  - apply HA. induction xs as [|x xs IHxs]; constructor; [apply IH | exact IHxs].
  - apply HO. induction fs as [|[k v] fs IHfs]; constructor; [apply IH | exact IHfs].
Qed.

Lemma assoc_with_assoc {A} (f : json -> A) (k : string) (fs : list (string * json)) :
  assoc_with f k fs = option_map f (assoc k fs).
Proof.
  induction fs as [|[k' v] fs IH]; simpl; [reflexivity|].
  destruct (String.eqb k k'); [reflexivity | exact IH].
Qed.

Lemma assoc_In {A} (k : string) (fs : list (string * A)) (v : A) :
  assoc k fs = Some v -> In (k, v) fs.
Proof.
  induction fs as [|[k' v'] fs IH]; simpl; [discriminate|].
  destruct (String.eqb k k') eqn:E.
  - apply String.eqb_eq in E. subst k'. intros [= ->]. left; reflexivity.
  - intros H. right. exact (IH H).
Qed.

(** The constructor on an object, with the reads of its properties
    written with [assoc]. *)
Lemma Type_new_Obj (fs : list (string * json)) :
  Type_.new (Obj fs) =
  Type_.mk
    (field (Obj fs) "complex_type")
    (match assoc "key" fs with
     | Some v => if truthy_json v then Some (Type_.new v) else None
     | None => None
     end)
    (match assoc "value" fs with
     | Some v => new_slot v
     | None => SPrim Null
     end)
    (match assoc "values" fs with
     | Some v => new_slots v
     | None => None
     end)
    (match assoc "options" fs with
     | Some v => new_slots v
     | None => None
     end)
    (or_else (field (Obj fs) "full_format") Null)
    (or_else (field (Obj fs) "description") Null).
Proof.
  cbn [Type_.new]. rewrite !assoc_with_assoc.
  destruct (assoc "key" fs), (assoc "value" fs), (assoc "values" fs),
    (assoc "options" fs); reflexivity.
Qed.

Lemma slot_json_well_formed (v : json) :
  (type_json v = true -> well_formed (Type_.new v) = true) ->
  match v with
  | Prim (Str _) => true
  | Obj _ => type_json v
  | _ => false
  end = true ->
  slot_is_type well_formed (new_slot v) = true.
Proof.
  destruct v as [[| b | n | s] | xs | fs]; cbn [new_slot slot_is_type];
    intros IH H; try discriminate H; auto.
Qed.

Lemma slots_json_well_formed (xs : list json) :
  Forall (fun v => type_json v = true -> well_formed (Type_.new v) = true) xs ->
  forallb (fun v => match v with
                    | Prim (Str _) => true
                    | Obj _ => type_json v
                    | _ => false
                    end) xs = true ->
  forallb (slot_is_type well_formed) (map new_slot xs) = true.
Proof.
  induction 1 as [|v xs Hv _ IH]; simpl; [reflexivity|].
  intros H. apply andb_true_iff in H as [H1 H2].
  rewrite (slot_json_well_formed v Hv H1). exact (IH H2).
Qed.

Lemma field_IH (P : json -> Prop) (fs : list (string * json)) (k : string) (v : json) :
  Forall (fun kv => P (snd kv)) fs -> assoc k fs = Some v -> P v.
Proof.
  intros HF Hk. apply assoc_In in Hk.
  rewrite Forall_forall in HF. exact (HF (k, v) Hk).
Qed.

Lemma type_json_well_formed_elements (j : json) :
  (type_json j = true -> well_formed (Type_.new j) = true) /\
  match j with
  | Arr xs =>
      Forall (fun v => type_json v = true -> well_formed (Type_.new v) = true) xs
  | _ => True
  end.
Proof.
  induction j as [p | xs IH | fs IH] using json_nested_ind.
  - split; [|exact I]. destruct p as [| b | n | s]; try discriminate.
    cbn. intros H. apply negb_true_iff in H.
    repeat (apply orb_false_iff in H as [-> H]). reflexivity.
  - split; [discriminate|].
    induction IH as [|x xs [Hx _] _ IHxs]; constructor; assumption.
  - split; [|exact I].
    set (P := fun v => type_json v = true -> well_formed (Type_.new v) = true).
    assert (Hget : forall k v, assoc k fs = Some v ->
                     P v /\ match v with Arr xs => Forall P xs | _ => True end).
    { intros k v Hk.
      exact (field_IH (fun v => P v /\ match v with
                                       | Arr xs => Forall P xs
                                       | _ => True
                                       end) fs k v IH Hk). }
    clear IH. intros H. rewrite Type_new_Obj. cbn [type_json] in H.
    rewrite !assoc_with_assoc in H. cbn [field].
    destruct (assoc "complex_type" fs) as [[[| b | n | c] | xs | fs']|];
      try discriminate H.
    cbn [well_formed].
    destruct (String.eqb c "array").
    { destruct (assoc "value" fs) as [v|] eqn:Ev; [|discriminate H].
      exact (slot_json_well_formed v (proj1 (Hget _ v Ev)) H). }
    destruct (String.eqb c "dictionary").
    { apply andb_true_iff in H as [Hk Hv].
      destruct (assoc "key" fs) as [kj|] eqn:Ek; [|discriminate Hk].
      destruct (assoc "value" fs) as [v|] eqn:Ev; [|discriminate Hv].
      cbn [option_map] in Hk, Hv. apply andb_true_iff in Hk as [Ht Hk].
      rewrite Ht. rewrite (proj1 (Hget _ kj Ek) Hk).
      exact (slot_json_well_formed v (proj1 (Hget _ v Ev)) Hv). }
    destruct (String.eqb c "tuple").
    { destruct (assoc "values" fs) as [[p | xs | fs']|] eqn:Ev; try discriminate H.
      cbn [new_slots]. apply slots_json_well_formed; [|exact H].
      exact (proj2 (Hget _ _ Ev)). }
    destruct (String.eqb c "union").
    { destruct (assoc "options" fs) as [[p | xs | fs']|] eqn:Ev; try discriminate H.
      cbn [new_slots]. apply slots_json_well_formed; [|exact H].
      exact (proj2 (Hget _ _ Ev)). }
    destruct (String.eqb c "literal").
    { destruct (assoc "description" fs) as [[p | xs | fs']|];
        try discriminate H; cbn [or_else]; try reflexivity.
      destruct (truthy_json (Prim p)); reflexivity. }
    destruct (String.eqb c "type").
    { destruct (assoc "value" fs) as [v|] eqn:Ev; [|discriminate H].
      exact (slot_json_well_formed v (proj1 (Hget _ v Ev)) H). }
    reflexivity.
Qed.

(** X2: the [Type] built from JSON that follows the format of a type is
    well formed, so rendering it returns a string and never throws. *)
Theorem type_json_renders (j : json) :
  type_json j = true ->
  well_formed (Type_.new j) = true /\ renders (Type_.new j).
Proof.
  intros H. pose proof (proj1 (type_json_well_formed_elements j) H) as Hwf.
  split; [exact Hwf | exact (well_formed_toString _ Hwf)].
Qed.

Lemma type_json_renders_witness :
  well_formed
    (Type_.new (Obj [("complex_type", Prim (Str "union"));
                     ("options",
                      Arr [Prim (Str "string");
                           Obj [("complex_type", Prim (Str "array"));
                                ("value", Prim (Str "uint"))]])])) = true /\
  renders
    (Type_.new (Obj [("complex_type", Prim (Str "union"));
                     ("options",
                      Arr [Prim (Str "string");
                           Obj [("complex_type", Prim (Str "array"));
                                ("value", Prim (Str "uint"))]])])).
Proof.
  apply type_json_renders. reflexivity.
Defined.

(** X3: an object whose [complex_type] is a string other than the six
    kind names renders as that string, whatever else it carries. *)
Theorem unknown_kind_is_name (fs : list (string * json)) (c : string) :
  assoc "complex_type" fs = Some (Prim (Str c)) ->
  ~ In c kind_names ->
  Type_.toString (Type_.new (Obj fs)) = Ok (Val (Str c)).
Proof.
  intros Hc Hn. destruct (not_kind_name c Hn) as (Ha & Hd & Ht & Hu & Hl & Hy).
  rewrite Type_new_Obj, toString_eq. cbn [field]. rewrite Hc.
  cbn [loose_eq bind].
  rewrite Ha, Hd, Ht, Hu, Hl, Hy. reflexivity.
Qed.

Lemma unknown_kind_is_name_witness :
  Type_.toString
    (Type_.new (Obj [("complex_type", Prim (Str "struct"));
                     ("value", Prim (Str "uint"));
                     ("options", Arr [Prim Null])])) = Ok (Val (Str "struct")).
Proof.
  apply unknown_kind_is_name; [reflexivity|].
  unfold kind_names; simpl.
  intros [H | [H | [H | [H | [H | [H | []]]]]]]; discriminate H.
Defined.

(** X4: what a composite does when the JSON lacks its children.  A tuple
    without an array [values], a union without an array [options] and an
    alias without [value] (or with [null]) make [toString] throw; an array
    without [value] renders as [null[]], and a dictionary without [key] and
    [value] as [table<null, null>]. *)
Theorem missing_children (fs : list (string * json)) :
  (assoc "complex_type" fs = Some (Prim (Str "tuple")) ->
   not_array (field (Obj fs) "values") ->
   Type_.toString (Type_.new (Obj fs)) = TypeError) /\
  (assoc "complex_type" fs = Some (Prim (Str "union")) ->
   not_array (field (Obj fs) "options") ->
   Type_.toString (Type_.new (Obj fs)) = TypeError) /\
  (assoc "complex_type" fs = Some (Prim (Str "type")) ->
   assoc "value" fs = None \/ assoc "value" fs = Some (Prim Null) ->
   Type_.toString (Type_.new (Obj fs)) = TypeError) /\
  (assoc "complex_type" fs = Some (Prim (Str "array")) ->
   assoc "value" fs = None ->
   Type_.toString (Type_.new (Obj fs)) = Ok (Val (Str "null[]"))) /\
  (assoc "complex_type" fs = Some (Prim (Str "dictionary")) ->
   assoc "key" fs = None ->
   assoc "value" fs = None ->
   Type_.toString (Type_.new (Obj fs)) = Ok (Val (Str "table<null, null>"))).
Proof.
  repeat apply conj; intros Hc; rewrite Type_new_Obj, toString_eq;
    cbn [field] in *; rewrite Hc; cbn [loose_eq bind String.eqb Ascii.eqb Bool.eqb].
  - intros Hv. destruct (assoc "values" fs) as [[p | xs | fs']|];
      solve [reflexivity | contradiction].
  - intros Hv. destruct (assoc "options" fs) as [[p | xs | fs']|];
      solve [reflexivity | contradiction].
  - intros [-> | ->]; reflexivity.
  - intros ->. reflexivity.
  - intros -> ->. reflexivity.
Qed.

Lemma missing_children_witness :
  Type_.toString (Type_.new (Obj [("complex_type", Prim (Str "tuple"));
                                  ("values", Prim (Str "uint"))])) = TypeError.
Proof.
  apply (proj1 (missing_children [("complex_type", Prim (Str "tuple"));
                                  ("values", Prim (Str "uint"))]));
    [reflexivity | exact I].
Defined.

(** X5: a literal whose value is a number or a boolean renders as the word
    [number] or [boolean], followed by a space and the description when
    there is one; the value itself never appears.  A literal whose value is
    [null], missing or an object renders as [any]. *)
Theorem literal_scalar_toString (j : json) :
  Type_.complex_type (Type_.new j) = Val (Str "literal") ->
  (forall p, Type_.value (Type_.new j) = SPrim p ->
     typeof_prim p = "number" \/ typeof_prim p = "boolean" ->
     (Type_.description (Type_.new j) = Null ->
      Type_.toString (Type_.new j) = Ok (Val (Str (typeof_prim p)))) /\
     (forall text, Type_.description (Type_.new j) = Str text ->
      Type_.toString (Type_.new j)
      = Ok (Val (Str (typeof_prim p ++ " " ++ text))))) /\
  (Type_.value (Type_.new j) = SPrim Null \/
   (exists t', Type_.value (Type_.new j) = SType t') ->
   Type_.toString (Type_.new j) = Ok (Val (Str "any"))).
Proof.
  intros Hct. pose proof (Type_new_description j) as Hd.
  rewrite toString_eq.
  destruct (Type_.new j) as [ct k v vs os ff d]; simpl in Hct, Hd |- *.
  subst ct. cbn [loose_eq String.eqb Ascii.eqb Bool.eqb bind].
  split.
  - intros p -> Hp. split.
    + intros ->. destruct Hp as [Hp | Hp]; cbn [Type_.slot_typeof];
        rewrite Hp; reflexivity.
    + intros text ->. destruct Hd as [Hd | Hd]; [discriminate|].
      rewrite Hd. destruct Hp as [Hp | Hp]; cbn [Type_.slot_typeof];
        rewrite Hp; reflexivity.
  - intros [-> | (t' & ->)]; reflexivity.
Qed.

Lemma literal_scalar_toString_witness :
  Type_.toString (Type_.new (Obj [("complex_type", Prim (Str "literal"));
                                  ("value", Prim (Num 5));
                                  ("description", Prim (Str "tick count"))]))
  = Ok (Val (Str ("number" ++ " " ++ "tick count"))).
Proof.
  apply (proj2 (proj1 (literal_scalar_toString
                         (Obj [("complex_type", Prim (Str "literal"));
                               ("value", Prim (Num 5));
                               ("description", Prim (Str "tick count"))])
                         eq_refl) (Num 5) eq_refl (or_introl eq_refl))).
  reflexivity.
Defined.

(** X6: an alias is transparent.  An object of kind [type] renders exactly
    as the [Type] built from its [value] when that value is an object, and
    as the value itself when it is a string, even one of the kind names. *)
Theorem alias_is_transparent (fs : list (string * json)) :
  assoc "complex_type" fs = Some (Prim (Str "type")) ->
  (forall fs', assoc "value" fs = Some (Obj fs') ->
     Type_.toString (Type_.new (Obj fs)) = Type_.toString (Type_.new (Obj fs'))) /\
  (forall s, assoc "value" fs = Some (Prim (Str s)) ->
     Type_.toString (Type_.new (Obj fs)) = Ok (Val (Str s))).
Proof.
  intros Hc. split.
  - intros fs' Hv. rewrite (Type_new_Obj fs), toString_eq. cbn [field].
    rewrite Hc, Hv. reflexivity.
  - intros s Hv. rewrite (Type_new_Obj fs), toString_eq. cbn [field].
    rewrite Hc, Hv. reflexivity.
Qed.

Lemma alias_is_transparent_witness :
  Type_.toString (Type_.new (Obj [("complex_type", Prim (Str "type"));
                                  ("value", Prim (Str "array"))]))
  = Ok (Val (Str "array")).
Proof.
  apply (proj2 (alias_is_transparent [("complex_type", Prim (Str "type"));
                                      ("value", Prim (Str "array"))] eq_refl)).
  reflexivity.
Defined.

(** X7: the composites render their children in place: an array as the
    element followed by [[]], a dictionary as [table<k, v>], a tuple as
    [tuple<...>] with the elements separated by a comma and a space (so the
    empty tuple is [tuple<>]). *)
Theorem composite_toString k vs os ff d :
  (forall (v : slot Type_.t) (r : string),
     Type_.slot_str v = Ok r ->
     Type_.toString (Type_.mk (Val (Str "array")) k v vs os ff d)
     = Ok (Val (Str (r ++ "[]")))) /\
  (forall (k' : Type_.t) (v : slot Type_.t) (rk rv : string),
     Type_.toString k' = Ok (Val (Str rk)) ->
     Type_.slot_str v = Ok rv ->
     Type_.toString (Type_.mk (Val (Str "dictionary")) (Some k') v vs os ff d)
     = Ok (Val (Str ("table<" ++ rk ++ ", " ++ rv ++ ">")))) /\
  (forall (v : slot Type_.t) (xs : list (slot Type_.t)) (rs : list string),
     Forall2 (fun o r => Type_.slot_toString o = Ok (Val (Str r))) xs rs ->
     Type_.toString (Type_.mk (Val (Str "tuple")) k v (Some xs) os ff d)
     = Ok (Val (Str ("tuple<" ++ join ", " rs ++ ">")))).
Proof.
  repeat apply conj.
  - intros v r Hr. rewrite toString_eq. cbn [loose_eq String.eqb Ascii.eqb Bool.eqb bind].
    rewrite Hr. reflexivity.
  - intros k' v rk rv Hk Hv. rewrite toString_eq.
    cbn [loose_eq String.eqb Ascii.eqb Bool.eqb bind Type_.str].
    rewrite Hk, Hv. reflexivity.
  - intros v xs rs H. rewrite toString_eq.
    cbn [loose_eq String.eqb Ascii.eqb Bool.eqb bind].
    rewrite (joined_strings _ _ _ H). reflexivity.
Qed.

Lemma composite_toString_witness :
  Type_.toString
    (Type_.new (Obj [("complex_type", Prim (Str "tuple"));
                     ("values", Arr [Prim (Str "uint"); Prim (Str "string")])]))
  = Ok (Val (Str ("tuple<" ++ join ", " ["uint"; "string"] ++ ">"))).
Proof.
  apply (proj2 (proj2 (composite_toString None None None Null Null))
           (SPrim Null) [SPrim (Str "uint"); SPrim (Str "string")]).
  repeat constructor.
Defined.

(** ** Field declarations are one line *)

Lemma contains_char_app (c : ascii) (a b : string) :
  contains_char c (a ++ b) = contains_char c a || contains_char c b.
Proof.
  induction a as [|x a IH]; simpl; [reflexivity|].
  rewrite IH. now rewrite orb_assoc.
Qed.

Lemma split_head_free (sep : ascii) (s : string) :
  exists x xs, split sep s = x :: xs /\ contains_char sep x = false.
Proof.
  induction s as [|c s (x & xs & Hs & Hx)]; simpl.
  - exists "", []. split; reflexivity.
  - destruct (Ascii.eqb c sep) eqn:E.
    + exists "", (split sep s). split; reflexivity.
    + rewrite Hs. exists (String c x), xs. split; [reflexivity|].
      simpl. now rewrite E, Hx.
Qed.

Lemma first_line_no_newline (d : string) :
  contains_char newline (first_line d) = false.
Proof.
  unfold first_line. destruct (split_head_free newline d) as (x & xs & -> & Hx).
  exact Hx.
Qed.

Lemma replaceAll_from_keeps_free (c : ascii) (pat : string) (s : string) :
  contains_char c s = false ->
  forall skip, contains_char c (replaceAll_from pat "" skip s) = false.
Proof.
  induction s as [|x s IH]; intros H skip; [reflexivity|].
  simpl in H. apply orb_false_iff in H as [Hx Hs].
  cbn [replaceAll_from]. destruct skip as [|k]; [|apply IH; exact Hs].
  destruct (String.prefix pat (String x s)).
  - cbn [append]. apply IH; exact Hs.
  - cbn [contains_char]. rewrite Hx. apply IH; exact Hs.
Qed.

Lemma join_free (c : ascii) (sep : string) (xs : list string) :
  contains_char c sep = false ->
  Forall (fun x => contains_char c x = false) xs ->
  contains_char c (join sep xs) = false.
Proof.
  intros Hsep. induction 1 as [|x xs Hx Hxs IH]; [reflexivity|].
  destruct xs as [|y ys]; [exact Hx|].
  change (join sep (x :: y :: ys)) with (x ++ sep ++ join sep (y :: ys)).
  now rewrite !contains_char_app, Hx, Hsep, IH.
Qed.

(** X8: a field declaration is a single line.  When the name and the
    rendered type hold no newline, the text [toField] returns holds none
    either, however many lines the description has; this is so for a
    property, a define value, an attribute and a method. *)
Theorem toField_single_line :
  (forall (p : Property_.t) (n d ty : string),
     BasicMember.name (Property_.base p) = Val (Str n) ->
     BasicMember.description (Property_.base p) = Str d ->
     Type_.str (Property_.type p) = Ok ty ->
     contains_char newline n = false ->
     contains_char newline ty = false ->
     exists s, Property_.toField p = Ok s /\ contains_char newline s = false) /\
  (forall (v : DefineValue.t) (n d : string),
     DefineValue.name v = Val (Str n) ->
     DefineValue.description v = Val (Str d) ->
     contains_char newline n = false ->
     exists s, DefineValue.toField v = Ok s /\ contains_char newline s = false) /\
  (forall (a : Attribute.t) (n d seg : string),
     BasicMember.name (Attribute.base a) = Val (Str n) ->
     BasicMember.description (Attribute.base a) = Str d ->
     Attribute.typeStr a = Ok (Val (Str seg)) ->
     contains_char newline n = false ->
     contains_char newline seg = false ->
     exists s, Attribute.toField a = Ok s /\ contains_char newline s = false) /\
  (forall (m : Method.t) (n d : string) (ps : list Parameter_.t)
          (sig : list (string * string)),
     BasicMember.name (Method.base m) = Val (Str n) ->
     BasicMember.description (Method.base m) = Str d ->
     Method.parameters m = Some ps ->
     Forall2 (fun p s =>
                Parameter_.name p = Val (Str (fst s)) /\
                exists ty, Parameter_.type p = Some ty /\
                           Type_.toString ty = Ok (Val (Str (snd s)))) ps sig ->
     contains_char newline n = false ->
     Forall (fun s => contains_char newline (fst s) = false /\
                      contains_char newline (snd s) = false) sig ->
     exists s, Method.toField m = Ok s /\ contains_char newline s = false).
Proof.
  repeat apply conj.
  - intros p n d ty Hn Hd Hty Fn Fty. unfold Property_.toField.
    rewrite Hd, Hn, Hty. cbn [split_first_line bind jsval_ToString ToString prim_toString].
    eexists; split; [reflexivity|]. fold (first_line d).
    now rewrite !contains_char_app, Fn, Fty, first_line_no_newline.
  - intros v n d Hn Hd Fn. unfold DefineValue.toField.
    rewrite Hd, Hn. cbn [split_first_line bind jsval_ToString ToString prim_toString].
    eexists; split; [reflexivity|]. fold (first_line d).
    now rewrite !contains_char_app, Fn, first_line_no_newline.
  - intros a n d seg Hn Hd Hseg Fn Fseg. unfold Attribute.toField.
    rewrite Hd, Hseg, Hn. cbn [split_first_line bind jsval_ToString ToString prim_toString].
    eexists; split; [reflexivity|]. fold (first_line d).
    now rewrite !contains_char_app, Fn, Fseg, first_line_no_newline.
  - intros m n d ps sig Hn Hd Hps Hsig Fn Fsig. unfold Method.toField.
    rewrite Hd, Hps, Hn. cbn [split_first_line bind].
    rewrite (params_loop_join ps (map param_sig sig)).
    + cbn [bind jsval_ToString ToString prim_toString].
      eexists; split; [reflexivity|]. fold (first_line d).
      rewrite !contains_char_app, Fn, first_line_no_newline.
      rewrite join_free; [reflexivity | reflexivity |].
      clear - Fsig. induction Fsig as [|[pn r] sig [H1 H2] _ IH]; constructor;
        [|exact IH].
      unfold param_sig. cbn [fst snd] in *.
      rewrite !contains_char_app, H1. cbn.
      apply replaceAll_from_keeps_free; exact H2.
    + clear - Hsig. induction Hsig as [|p [pn r] ps sig [Hn (ty & Ht & Hr)] _ IH];
        simpl; constructor; [|exact IH].
      now apply param_text_strings with (ty := ty).
Qed.

Lemma toField_single_line_witness :
  exists s,
    DefineValue.toField
      {| DefineValue.name := Val (Str "north");
         DefineValue.order := Val (Num 0);
         DefineValue.description :=
           Val (Str ("North." ++ String newline "Second line.")) |} = Ok s /\
    contains_char newline s = false.
Proof.
  apply (proj1 (proj2 toField_single_line) _ "north"
           ("North." ++ String newline "Second line.")); reflexivity.
Defined.

(** ** Method.toField at the edges *)

(** X9: a method whose [parameters] is [null] and one whose [parameters]
    is the empty array render the same signature, [fun()]. *)
Theorem Method_toField_no_parameters (m : Method.t) (n d : string) :
  BasicMember.name (Method.base m) = Val (Str n) ->
  BasicMember.description (Method.base m) = Str d ->
  Method.parameters m = None \/ Method.parameters m = Some [] ->
  Method.toField m = Ok ("---@field " ++ n ++ " fun() " ++ first_line d).
Proof.
  intros Hn Hd Hp. unfold Method.toField. rewrite Hd, Hn.
  destruct Hp as [-> | ->]; reflexivity.
Qed.

Lemma Method_toField_no_parameters_witness :
  (m <- Method.new (Obj [("name", Prim (Str "clear"));
                         ("description", Prim (Str "Clears."));
                         ("parameters", Arr [])]) ;;
   Method.toField m)
  = Ok ("---@field " ++ "clear" ++ " fun() " ++ first_line "Clears.").
Proof.
  cbn [Method.new bind].
  apply Method_toField_no_parameters; [reflexivity | reflexivity | right; reflexivity].
Defined.

Lemma params_loop_untyped (ps : list Parameter_.t) :
  Exists (fun p => Parameter_.type p = None) ps ->
  forall acc, Method.params_loop ps acc = TypeError.
Proof.
  induction 1 as [p ps Hp | p ps _ IH]; intros acc; cbn [Method.params_loop].
  - unfold Method.param_text. rewrite Hp. reflexivity.
  - destruct (Method.param_text p); cbn [bind]; [apply IH | reflexivity].
Qed.

(** X10: [Method.toField] throws as soon as one parameter has no type,
    wherever it stands in the list; and a parameter built from JSON whose
    [type] is missing or falsy has none. *)
Theorem Method_toField_untyped_parameter :
  (forall (m : Method.t) (ps : list Parameter_.t),
     Method.parameters m = Some ps ->
     Exists (fun p => Parameter_.type p = None) ps ->
     Method.toField m = TypeError) /\
  (forall j : json,
     is_null j = false ->
     truthy (field j "type") = false ->
     exists p, Parameter_.new j = Ok p /\ Parameter_.type p = None).
Proof.
  split.
  - intros m ps Hps Hex. unfold Method.toField. rewrite Hps.
    rewrite (params_loop_untyped ps Hex).
    destruct (split_first_line (BasicMember.description (Method.base m)));
      reflexivity.
  - intros j Hj Ht. unfold Parameter_.new. rewrite Hj.
    eexists; split; [reflexivity|]. cbn [Parameter_.type].
    destruct (field j "type") as [|v]; cbn in Ht |- *; [reflexivity|].
    now rewrite Ht.
Qed.

Lemma Method_toField_untyped_parameter_witness :
  Method.toField
    {| Method.base :=
         {| BasicMember.name := Val (Str "f");
            BasicMember.order := Undefined;
            BasicMember.description := Str "Moves.";
            BasicMember.lists := Null;
            BasicMember.examples := Null;
            BasicMember.images := None |};
       Method.visibility := Null;
       Method.raises := None;
       Method.subclasses := Null;
       Method.parameters :=
         Some [ {| Parameter_.name := Val (Str "a");
                   Parameter_.order := Undefined;
                   Parameter_.description := Undefined;
                   Parameter_.type := Some (Type_.new (Prim (Str "uint")));
                   Parameter_.optional := Bool false |};
                {| Parameter_.name := Val (Str "b");
                   Parameter_.order := Undefined;
                   Parameter_.description := Undefined;
                   Parameter_.type := None;
                   Parameter_.optional := Bool false |} ];
       Method.variant_parameter_groups := None;
       Method.variant_parameter_description := Null;
       Method.variadic_parameter := None;
       Method.format := None;
       Method.return_values := None |}
  = TypeError.
Proof.
  eapply (proj1 Method_toField_untyped_parameter); [reflexivity|].
  apply Exists_cons_tl. apply Exists_cons_hd. reflexivity.
Defined.

(** ** Property.toField *)

(** X11: a property built from JSON whose [type] is missing or falsy
    renders the word [null] where the type stands.  This is so for every
    property that is built, and the only way no line is produced is that
    the shared member fields could not be built. *)
Theorem Property_toField_without_type (j : json) (n d : string) :
  field j "name" = Val (Str n) ->
  field j "description" = Val (Str d) ->
  truthy (field j "type") = false ->
  (forall p, Property_.new j = Ok p ->
     Property_.toField p = Ok ("---@field " ++ n ++ " null " ++ first_line d)) /\
  (p <- Property_.new j ;; Property_.toField p)
  = (b <- BasicMember.new j ;;
     Ok ("---@field " ++ n ++ " null " ++ first_line d)).
Proof.
  intros Hn Hd Ht.
  assert (Hty : Type_.new_if_truthy (field j "type") = None).
  { destruct (field j "type") as [|v]; cbn in Ht |- *; [reflexivity|].
    now rewrite Ht. }
  assert (Hdesc : or_else (field j "description") (Str "") = Str d).
  { rewrite Hd. cbn. destruct d; reflexivity. }
  assert (Hline : forall p, Property_.new j = Ok p ->
            Property_.toField p
            = Ok ("---@field " ++ n ++ " null " ++ first_line d)).
  { intros p Hp. unfold Property_.new in Hp.
    apply bind_Ok in Hp as (b & Hb & Hp). injection Hp as <-.
    unfold BasicMember.new in Hb. destruct (is_null j); [discriminate|].
    apply bind_Ok in Hb as (imgs & _ & Hb). injection Hb as <-.
    unfold Property_.toField.
    cbn [Property_.base Property_.type BasicMember.description BasicMember.name].
    rewrite Hn, Hdesc, Hty. reflexivity. }
  split; [exact Hline|].
  destruct (Property_.new j) as [p|] eqn:Ep.
  - cbn [bind]. rewrite (Hline p eq_refl).
    unfold Property_.new in Ep. apply bind_Ok in Ep as (b & -> & _). reflexivity.
  - unfold Property_.new in Ep.
    destruct (BasicMember.new j); [discriminate Ep | reflexivity].
Qed.

Lemma Property_toField_without_type_witness :
  exists p,
    Property_.new (Obj [("name", Prim (Str "icon"));
                        ("description", Prim (Str "Path to the icon."));
                        ("images", Arr [Obj [("filename", Prim (Str "icon.png"))]])])
    = Ok p /\
    Property_.toField p
    = Ok ("---@field " ++ "icon" ++ " null " ++ first_line "Path to the icon.").
Proof.
  eexists. split; [reflexivity|].
  apply (proj1 (Property_toField_without_type
                  (Obj [("name", Prim (Str "icon"));
                        ("description", Prim (Str "Path to the icon."));
                        ("images", Arr [Obj [("filename", Prim (Str "icon.png"))]])])
                  "icon" "Path to the icon." eq_refl eq_refl eq_refl)).
  reflexivity.
Defined.

(** ** Construction: what the loops keep and when they throw *)

Lemma mapM_Ok_Forall2 {A B} (f : A -> res B) (xs : list A) (ys : list B) :
  mapM f xs = Ok ys -> Forall2 (fun x y => f x = Ok y) xs ys.
Proof.
  revert ys. induction xs as [|x xs IH]; cbn [mapM]; intros ys H.
  - injection H as <-. constructor.
  - apply bind_Ok in H as (y & Hy & H).
    apply bind_Ok in H as (ys' & Hys & H). injection H as <-.
    constructor; [exact Hy | exact (IH _ Hys)].
Qed.

Lemma mapM_TypeError {A B} (f : A -> res B) (xs : list A) :
  mapM f xs = TypeError <-> exists x, In x xs /\ f x = TypeError.
Proof.
  induction xs as [|x xs IH]; cbn [mapM].
  - split; [discriminate | intros (x & [] & _)].
  - destruct (f x) as [y|] eqn:Ex; cbn [bind].
    + destruct (mapM f xs) as [ys|]; cbn [bind].
      * split; [discriminate|]. intros (x' & [<- | Hin] & Hx').
        -- congruence.
        -- destruct IH as [_ IH]. discriminate (IH (ex_intro _ x' (conj Hin Hx'))).
      * split; [|reflexivity]. intros _.
        destruct IH as [IH _]. destruct (IH eq_refl) as (x' & Hin & Hx').
        exists x'. split; [right; exact Hin | exact Hx'].
    + split; [|reflexivity]. intros _. exists x. split; [left; reflexivity | exact Ex].
Qed.

Lemma new_each_Ok {A} (new_C : json -> res A) (xs : list json) (r : option (list A)) :
  new_each new_C (Val (Arr xs)) = Ok r ->
  exists ys, r = Some ys /\ Forall2 (fun x y => new_C x = Ok y) xs ys.
Proof.
  cbn [new_each]. intros H. apply bind_Ok in H as (ys & Hys & H).
  injection H as <-. exists ys. split; [reflexivity|].
  exact (mapM_Ok_Forall2 _ _ _ Hys).
Qed.

Lemma is_null_true (j : json) : is_null j = true <-> j = Prim Null.
Proof.
  split; [|intros ->; reflexivity].
  destruct j as [[| b | n | s] | xs | fs]; cbn; intros H;
    solve [reflexivity | discriminate H].
Qed.

(** X12: the constructor of [BasicMember] throws on a JSON object exactly
    when [images] is an array with a [null] element. *)
Theorem BasicMember_new_throws_iff (fs : list (string * json)) :
  BasicMember.new (Obj fs) = TypeError <->
  exists xs, field (Obj fs) "images" = Val (Arr xs) /\ In (Prim Null) xs.
Proof.
  unfold BasicMember.new. cbn [is_null].
  destruct (field (Obj fs) "images") as [|[p | xs | fs']] eqn:E;
    cbn [new_each bind];
    try (split; [discriminate | intros (xs' & Hx & _); discriminate Hx]).
  destruct (mapM Image.new xs) as [imgs|] eqn:Em; cbn [bind].
  - split; [discriminate|]. intros (xs' & Hx & Hin). injection Hx as <-.
    assert (Hex : exists x, In x xs /\ Image.new x = TypeError).
    { exists (Prim Null). split; [exact Hin | reflexivity]. }
    apply mapM_TypeError in Hex. congruence.
  - split; [|reflexivity]. intros _. exists xs. split; [reflexivity|].
    apply mapM_TypeError in Em as (x & Hin & Hx).
    unfold Image.new in Hx. destruct (is_null x) eqn:En; [|discriminate Hx].
    apply is_null_true in En. subst x. exact Hin.
Qed.

Lemma BasicMember_new_name (j : json) (b : BasicMember.t) :
  BasicMember.new j = Ok b -> BasicMember.name b = field j "name".
Proof.
  unfold BasicMember.new. destruct (is_null j); [discriminate|].
  intros H. apply bind_Ok in H as (imgs & _ & H). injection H as <-.
  reflexivity.
Qed.

Lemma strict_eq_true (v : jsval) (s : string) :
  strict_eq v s = true -> v = Val (Str s).
Proof.
  destruct v as [|[[| b | n | t] | xs | fs]]; cbn; intros H; try discriminate H.
  apply String.eqb_eq in H. now subst.
Qed.

Lemma operator_of_name (op : json) (o : Class_.operator) :
  Class_.operator_of op = Ok (Some o) ->
  operator_name o = field op "name" /\ is_operator_name op = true.
Proof.
  unfold Class_.operator_of, is_operator_name.
  destruct (is_null op); [discriminate|].
  destruct (strict_eq (field op "name") "call"
            || strict_eq (field op "name") "index"
            || strict_eq (field op "name") "length"); [|discriminate].
  intros H. split; [|reflexivity].
  destruct (truthy (field op "parameters") || truthy (field op "return_values")).
  - apply bind_Ok in H as (m & Hm & H). injection H as <-.
    unfold Method.new in Hm. apply bind_Ok in Hm as (b & Hb & Hm).
    apply bind_Ok in Hm as (x1 & _ & Hm). apply bind_Ok in Hm as (x2 & _ & Hm).
    apply bind_Ok in Hm as (x3 & _ & Hm). apply bind_Ok in Hm as (x4 & _ & Hm).
    apply bind_Ok in Hm as (x5 & _ & Hm). apply bind_Ok in Hm as (x6 & _ & Hm).
    injection Hm as <-. exact (BasicMember_new_name _ _ Hb).
  - apply bind_Ok in H as (a & Ha & H). injection H as <-.
    apply Attribute_new_Ok in Ha as (Hb & _). exact (BasicMember_new_name _ _ Hb).
Qed.

(** X13: every entry of the [operators] list the constructor's loop
    builds is named [call], [index] or [length], and the list is never
    longer than the JSON array. *)
Theorem operators_are_named (ops : list json) (os : list Class_.operator) :
  Class_.operators_loop ops = Ok os ->
  Forall (fun o => operator_name o = Val (Str "call") \/
                   operator_name o = Val (Str "index") \/
                   operator_name o = Val (Str "length")) os /\
  length os <= length ops.
Proof.
  revert os. induction ops as [|op ops IH]; cbn [Class_.operators_loop]; intros os H.
  - injection H as <-. split; [constructor | apply le_n].
  - apply bind_Ok in H as (o & Ho & H).
    apply bind_Ok in H as (os' & Hos & H). injection H as <-.
    destruct (IH _ Hos) as (IHn & IHl).
    destruct o as [x|].
    + split; [|cbn [length]; apply le_n_S; exact IHl].
      constructor; [|exact IHn].
      destruct (operator_of_name _ _ Ho) as (-> & Hname).
      unfold is_operator_name in Hname.
      apply orb_true_iff in Hname as [Hname | Hname];
        [apply orb_true_iff in Hname as [Hname | Hname]|];
        apply strict_eq_true in Hname; rewrite Hname; auto.
    + split; [exact IHn | cbn [length]; apply le_S; exact IHl].
Qed.

Lemma operators_are_named_witness :
  exists os,
    Class_.operators_loop
      [Obj [("name", Prim (Str "index"))];
       Obj [("name", Prim (Str "concat"))];
       Prim (Num 3)] = Ok os /\
    Forall (fun o => operator_name o = Val (Str "call") \/
                     operator_name o = Val (Str "index") \/
                     operator_name o = Val (Str "length")) os /\
    length os <= 3.
Proof.
  eexists. split; [reflexivity|].
  apply (operators_are_named
           [Obj [("name", Prim (Str "index"))];
            Obj [("name", Prim (Str "concat"))];
            Prim (Num 3)]).
  reflexivity.
Defined.

(** X14: the lists of a class keep the JSON order: the [i]-th method is
    the one built from the [i]-th element of [json.methods], and likewise
    for [attributes], so each list is as long as its JSON array. *)
Theorem Class_lists_in_order (fs : list (string * json)) (c : Class_.t) :
  Class_.new (Obj fs) = Ok c ->
  (forall xs, field (Obj fs) "methods" = Val (Arr xs) ->
     exists ms, Class_.methods c = Some ms /\
                Forall2 (fun x m => Method.new x = Ok m) xs ms /\
                length ms = length xs) /\
  (forall xs, field (Obj fs) "attributes" = Val (Arr xs) ->
     exists ats, Class_.attributes c = Some ats /\
                 Forall2 (fun x a => Attribute.new x = Ok a) xs ats /\
                 length ats = length xs).
Proof.
  unfold Class_.new. intros H.
  apply bind_Ok in H as (b & _ & H).
  apply bind_Ok in H as (ms & Hms & H).
  apply bind_Ok in H as (ats & Hats & H).
  apply bind_Ok in H as (ops & _ & H). injection H as <-.
  cbn [Class_.methods Class_.attributes]. split.
  - intros xs E. rewrite E in Hms.
    destruct (new_each_Ok _ _ _ Hms) as (ys & -> & HF).
    exists ys. repeat split; [exact HF|].
    symmetry. exact (Forall2_length HF).
  - intros xs E. rewrite E in Hats.
    destruct (new_each_Ok _ _ _ Hats) as (ys & -> & HF).
    exists ys. repeat split; [exact HF|].
    symmetry. exact (Forall2_length HF).
Qed.

Lemma Class_lists_in_order_witness :
  exists c ms,
    Class_.new (Obj [("name", Prim (Str "LuaBootstrap"));
                     ("methods", Arr [Obj [("name", Prim (Str "on_init"))];
                                      Obj [("name", Prim (Str "on_load"))]])]) = Ok c /\
    Class_.methods c = Some ms /\
    length ms = 2.
Proof.
  eexists.
  destruct (proj1 (Class_lists_in_order
                     [("name", Prim (Str "LuaBootstrap"));
                      ("methods", Arr [Obj [("name", Prim (Str "on_init"))];
                                       Obj [("name", Prim (Str "on_load"))]])]
                     _ eq_refl) _ eq_refl) as (ms & Hms & _ & Hlen).
  exists ms. split; [reflexivity|]. split; [exact Hms | exact Hlen].
Defined.

(** ** Construction never throws on JSON without null elements *)

Lemma truthy_not_null (j : json) : truthy_json j = true -> is_null j = false.
Proof.
  destruct j as [[| b | n | s] | xs | fs]; cbn; intros H;
    solve [reflexivity | discriminate H].
Qed.

Lemma field_no_null (j : json) (k : string) :
  no_null_element j = true ->
  match field j k with
  | Val v => no_null_element v = true
  | Undefined => True
  end.
Proof.
  destruct j as [p | xs | fs]; cbn [field]; try (intros _; exact I).
  cbn [no_null_element]. intros H.
  destruct (assoc k fs) as [v|] eqn:E; [|exact I].
  apply assoc_In in E. rewrite forallb_forall in H. exact (H (k, v) E).
Qed.

Lemma mapM_succeeds {A B} (f : A -> res B) (xs : list A) :
  Forall (fun x => succeeds (f x)) xs -> succeeds (mapM f xs).
Proof.
  induction 1 as [|x xs (y & Hy) _ (ys & Hys)]; cbn [mapM].
  - eexists; reflexivity.
  - rewrite Hy. cbn [bind]. rewrite Hys. eexists; reflexivity.
Qed.

Lemma no_null_elements (xs : list json) :
  no_null_element (Arr xs) = true ->
  Forall (fun x => is_null x = false /\ no_null_element x = true) xs.
Proof.
  cbn [no_null_element]. intros H. rewrite forallb_forall in H.
  apply Forall_forall. intros x Hx. specialize (H x Hx).
  apply andb_true_iff in H as [H1 H2]. apply negb_true_iff in H1. auto.
Qed.

Lemma new_each_succeeds {A} (new_C : json -> res A) (j : json) (k : string) :
  (forall x, is_null x = false -> no_null_element x = true -> succeeds (new_C x)) ->
  no_null_element j = true ->
  succeeds (new_each new_C (field j k)).
Proof.
  intros Hnew Hj. pose proof (field_no_null j k Hj) as Hv.
  destruct (field j k) as [|[p | xs | fs]]; cbn [new_each];
    try (eexists; reflexivity).
  assert (HF : Forall (fun x => succeeds (new_C x)) xs).
  { pose proof (no_null_elements xs Hv) as HF. clear Hv.
    induction HF as [|x xs' [H1 H2] _ IH]; constructor; auto. }
  destruct (mapM_succeeds new_C xs HF) as (ys & Hys).
  rewrite Hys. eexists; reflexivity.
Qed.

Lemma new_if_truthy_succeeds {A} (new_C : json -> res A) (j : json) (k : string) :
  (forall x, is_null x = false -> no_null_element x = true -> succeeds (new_C x)) ->
  no_null_element j = true ->
  succeeds (new_if_truthy new_C (field j k)).
Proof.
  intros Hnew Hj. pose proof (field_no_null j k Hj) as Hv.
  destruct (field j k) as [|v]; cbn [new_if_truthy]; [eexists; reflexivity|].
  destruct (truthy_json v) eqn:Et; [|eexists; reflexivity].
  destruct (Hnew v (truthy_not_null v Et) Hv) as (a & ->).
  eexists; reflexivity.
Qed.

(** A constructor that only reads properties returns on every argument
    but [null]. *)
Ltac reads_only :=
  let j := fresh "j" in let Hj := fresh "Hj" in
  intros j Hj _; cbv beta delta [Image.new EventRaised.new Parameter_.new
    VariadicParameter.new MethodFormat.new DefineValue.new];
  rewrite Hj; eexists; reflexivity.

(** One more step of a constructor: the next part is built, by [lem]. *)
Ltac built_by lem :=
  let x := fresh "x" in let Hx := fresh "Hx" in
  destruct lem as (x & Hx); rewrite Hx; cbn [bind].

Lemma BasicMember_new_succeeds (j : json) :
  is_null j = false -> no_null_element j = true -> succeeds (BasicMember.new j).
Proof.
  intros Hj Hn. unfold BasicMember.new. rewrite Hj.
  built_by (new_each_succeeds Image.new j "images" ltac:(reads_only) Hn).
  eexists; reflexivity.
Qed.

Lemma Property_new_succeeds (j : json) :
  is_null j = false -> no_null_element j = true -> succeeds (Property_.new j).
Proof.
  intros Hj Hn. unfold Property_.new.
  built_by (BasicMember_new_succeeds j Hj Hn).
  eexists; reflexivity.
Qed.

Lemma ParameterGroup_new_succeeds (j : json) :
  is_null j = false -> no_null_element j = true -> succeeds (ParameterGroup.new j).
Proof.
  intros Hj Hn. unfold ParameterGroup.new. rewrite Hj.
  built_by (new_each_succeeds Parameter_.new j "parameters" ltac:(reads_only) Hn).
  eexists; reflexivity.
Qed.

Lemma Attribute_new_no_null (j : json) :
  is_null j = false -> no_null_element j = true -> succeeds (Attribute.new j).
Proof.
  intros Hj Hn. unfold Attribute.new.
  built_by (BasicMember_new_succeeds j Hj Hn).
  built_by (new_each_succeeds EventRaised.new j "raises" ltac:(reads_only) Hn).
  eexists; reflexivity.
Qed.

Lemma Method_new_no_null (j : json) :
  is_null j = false -> no_null_element j = true -> succeeds (Method.new j).
Proof.
  intros Hj Hn. unfold Method.new.
  built_by (BasicMember_new_succeeds j Hj Hn).
  built_by (new_each_succeeds EventRaised.new j "raises" ltac:(reads_only) Hn).
  built_by (new_each_succeeds Parameter_.new j "parameters" ltac:(reads_only) Hn).
  built_by (new_each_succeeds ParameterGroup.new j "variant_parameter_groups"
              ParameterGroup_new_succeeds Hn).
  built_by (new_if_truthy_succeeds VariadicParameter.new j "variadic_parameter"
              ltac:(reads_only) Hn).
  built_by (new_if_truthy_succeeds MethodFormat.new j "format" ltac:(reads_only) Hn).
  built_by (new_each_succeeds Parameter_.new j "return_values" ltac:(reads_only) Hn).
  eexists; reflexivity.
Qed.

Lemma operators_loop_succeeds (ops : list json) :
  no_null_element (Arr ops) = true -> succeeds (Class_.operators_loop ops).
Proof.
  intros H. apply no_null_elements in H.
  induction H as [|op ops [Hop Hn] _ (os & Hos)]; cbn [Class_.operators_loop].
  - eexists; reflexivity.
  - assert (Ho : succeeds (Class_.operator_of op)).
    { unfold Class_.operator_of. rewrite Hop.
      destruct (strict_eq (field op "name") "call"
                || strict_eq (field op "name") "index"
                || strict_eq (field op "name") "length"); [|eexists; reflexivity].
      destruct (truthy (field op "parameters") || truthy (field op "return_values")).
      - built_by (Method_new_no_null op Hop Hn). eexists; reflexivity.
      - built_by (Attribute_new_no_null op Hop Hn). eexists; reflexivity. }
    destruct Ho as (o & ->). cbn [bind]. rewrite Hos. eexists; reflexivity.
Qed.

Lemma Class_new_no_null (j : json) :
  is_null j = false -> no_null_element j = true -> succeeds (Class_.new j).
Proof.
  intros Hj Hn. unfold Class_.new.
  built_by (BasicMember_new_succeeds j Hj Hn).
  built_by (new_each_succeeds Method.new j "methods" Method_new_no_null Hn).
  built_by (new_each_succeeds Attribute.new j "attributes" Attribute_new_no_null Hn).
  pose proof (field_no_null j "operators" Hn) as Hops.
  destruct (field j "operators") as [|[p | ops | fs]]; try (eexists; reflexivity).
  built_by (operators_loop_succeeds ops Hops). eexists; reflexivity.
Qed.

Lemma Prototype_new_no_null (j : json) :
  is_null j = false -> no_null_element j = true -> succeeds (Prototype.new j).
Proof.
  intros Hj Hn. unfold Prototype.new.
  built_by (BasicMember_new_succeeds j Hj Hn).
  built_by (new_each_succeeds Property_.new j "properties" Property_new_succeeds Hn).
  eexists; reflexivity.
Qed.

Lemma Concept_new_no_null (j : json) :
  is_null j = false -> no_null_element j = true -> succeeds (Concept.new j).
Proof.
  intros Hj Hn. unfold Concept.new.
  built_by (BasicMember_new_succeeds j Hj Hn).
  built_by (new_each_succeeds Property_.new j "properties" Property_new_succeeds Hn).
  eexists; reflexivity.
Qed.

(** [Define]'s constructor, with the read of [subkeys] written as the
    other array fields are. *)
Lemma Define_new_eq (j : json) :
  Define.new j =
  (b <- BasicMember.new j ;;
   vals <- new_each DefineValue.new (field j "values") ;;
   subs <- new_each Define.new (field j "subkeys") ;;
   Ok {| Define.base := b; Define.values := vals; Define.subkeys := subs |}).
Proof.
  destruct j as [p | xs | fs]; cbn [Define.new field new_each]; try reflexivity.
  rewrite assoc_with_assoc.
  destruct (assoc "subkeys" fs) as [[p | xs | fs']|]; reflexivity.
Qed.

Lemma Define_new_no_null_elements (j : json) :
  (is_null j = false -> no_null_element j = true -> succeeds (Define.new j)) /\
  match j with
  | Arr xs =>
      Forall (fun x => is_null x = false -> no_null_element x = true ->
                       succeeds (Define.new x)) xs
  | _ => True
  end.
Proof.
  induction j as [p | xs IH | fs IH] using json_nested_ind.
  - split; [|exact I]. intros Hj Hn. rewrite Define_new_eq.
    built_by (BasicMember_new_succeeds (Prim p) Hj Hn). eexists; reflexivity.
  - split.
    + intros Hj Hn. rewrite Define_new_eq.
      built_by (BasicMember_new_succeeds (Arr xs) Hj Hn). eexists; reflexivity.
    + induction IH as [|x xs' [Hx _] _ IHxs]; constructor; assumption.
  - split; [|exact I]. intros Hj Hn. rewrite Define_new_eq.
    built_by (BasicMember_new_succeeds (Obj fs) Hj Hn).
    built_by (new_each_succeeds DefineValue.new (Obj fs) "values" ltac:(reads_only) Hn).
    pose proof (field_no_null (Obj fs) "subkeys" Hn) as Hsub.
    cbn [field] in Hsub |- *.
    destruct (assoc "subkeys" fs) as [[p | subs | fs']|] eqn:E;
      try (eexists; reflexivity).
    set (P := fun x => is_null x = false -> no_null_element x = true ->
                       succeeds (Define.new x)).
    destruct (field_IH (fun v => P v /\ match v with
                                        | Arr xs => Forall P xs
                                        | _ => True
                                        end) fs _ _ IH E) as [_ HF].
    subst P. cbn beta iota in HF.
    cbn [new_each].
    assert (HS : Forall (fun x => succeeds (Define.new x)) subs).
    { pose proof (no_null_elements subs Hsub) as Hnn.
      clear - HF Hnn. induction HF as [|x xs Hx _ IHxs]; constructor.
      - inversion Hnn as [|? ? [H1 H2] ?]; subst. exact (Hx H1 H2).
      - inversion Hnn; subst. apply IHxs; assumption. }
    destruct (mapM_succeeds Define.new subs HS) as (ys & Hys).
    rewrite Hys. eexists; reflexivity.
Qed.

(** X15: none of the exported constructors throws on a JSON value that is
    not [null] and in which no array, at any depth, has a [null] element:
    [Image], [BasicMember], [Property], [Concept], [Define] (with its
    nested sub-defines), [Prototype] and [Class] are all built. *)
Theorem constructors_never_throw (j : json) :
  is_null j = false ->
  no_null_element j = true ->
  succeeds (Image.new j) /\ succeeds (BasicMember.new j) /\
  succeeds (Property_.new j) /\ succeeds (Concept.new j) /\
  succeeds (Define.new j) /\ succeeds (Prototype.new j) /\
  succeeds (Class_.new j).
Proof.
  intros Hj Hn. repeat apply conj.
  - unfold Image.new. rewrite Hj. eexists; reflexivity.
  - exact (BasicMember_new_succeeds j Hj Hn).
  - exact (Property_new_succeeds j Hj Hn).
  - exact (Concept_new_no_null j Hj Hn).
  - exact (proj1 (Define_new_no_null_elements j) Hj Hn).
  - exact (Prototype_new_no_null j Hj Hn).
  - exact (Class_new_no_null j Hj Hn).
Qed.

Lemma constructors_never_throw_witness :
  succeeds
    (Define.new
       (Obj [("name", Prim (Str "defines"));
             ("subkeys",
              Arr [Obj [("name", Prim (Str "direction"));
                        ("values", Arr [Obj [("name", Prim (Str "north"))];
                                        Obj [("name", Prim (Str "south"))]])];
                   Obj [("name", Prim (Str "events"));
                        ("images", Arr [Obj [("filename", Prim (Str "e.png"));
                                             ("caption", Prim Null)]])]])])).
Proof.
  apply constructors_never_throw; reflexivity.
Defined.

(** ** Class declarations *)

Lemma Define_new_name (j : json) (d : Define.t) :
  Define.new j = Ok d -> BasicMember.name (Define.base d) = field j "name".
Proof.
  rewrite Define_new_eq. intros H.
  apply bind_Ok in H as (b & Hb & H).
  apply bind_Ok in H as (vals & _ & H).
  apply bind_Ok in H as (subs & _ & H). injection H as <-.
  exact (BasicMember_new_name _ _ Hb).
Qed.

Lemma Concept_new_name (j : json) (c : Concept.t) :
  Concept.new j = Ok c -> BasicMember.name (Concept.base c) = field j "name".
Proof.
  unfold Concept.new. intros H.
  apply bind_Ok in H as (b & Hb & H).
  apply bind_Ok in H as (props & _ & H). injection H as <-.
  exact (BasicMember_new_name _ _ Hb).
Qed.

Lemma Prototype_new_name (j : json) (p : Prototype.t) :
  Prototype.new j = Ok p -> BasicMember.name (Prototype.base p) = field j "name".
Proof.
  unfold Prototype.new. intros H.
  apply bind_Ok in H as (b & Hb & H).
  apply bind_Ok in H as (props & _ & H). injection H as <-.
  exact (BasicMember_new_name _ _ Hb).
Qed.

Lemma Class_new_name (j : json) (c : Class_.t) :
  Class_.new j = Ok c -> BasicMember.name (Class_.base c) = field j "name".
Proof.
  unfold Class_.new. intros H.
  apply bind_Ok in H as (b & Hb & H).
  apply bind_Ok in H as (ms & _ & H).
  apply bind_Ok in H as (ats & _ & H).
  apply bind_Ok in H as (ops & _ & H). injection H as <-.
  exact (BasicMember_new_name _ _ Hb).
Qed.

(** X16: the class line of a concept, a define, a prototype and a class
    built from the same JSON is the same text: [---@class] and the name the
    JSON carries, or [---@class undefined] when it carries none; nothing
    else of the JSON shows in it. *)
Theorem class_line_from_name (j : json) (line : string) :
  (exists n, field j "name" = Val (Str n) /\ line = "---@class " ++ n) \/
  (field j "name" = Undefined /\ line = "---@class undefined") ->
  (forall c, Concept.new j = Ok c -> Concept.toClass c = Ok line) /\
  (forall d, Define.new j = Ok d -> Define.toString d = Ok line) /\
  (forall p, Prototype.new j = Ok p -> Prototype.toClass p = Ok line) /\
  (forall c, Class_.new j = Ok c -> Class_.toClass c = Ok line).
Proof.
  intros Hname.
  assert (Hline : (n <- jsval_ToString (field j "name") ;; Ok ("---@class " ++ n))
                  = Ok line).
  { destruct Hname as [(n & -> & ->) | (-> & ->)]; reflexivity. }
  repeat apply conj.
  - intros c Hc. unfold Concept.toClass. now rewrite (Concept_new_name j c Hc).
  - intros d Hd. unfold Define.toString. now rewrite (Define_new_name j d Hd).
  - intros p Hp. unfold Prototype.toClass. now rewrite (Prototype_new_name j p Hp).
  - intros c Hc. unfold Class_.toClass. now rewrite (Class_new_name j c Hc).
Qed.

Lemma class_line_from_name_witness :
  exists d,
    Define.new (Obj [("name", Prim (Str "defines.direction"));
                     ("values", Arr [Obj [("name", Prim (Str "north"))]])]) = Ok d /\
    Define.toString d = Ok ("---@class " ++ "defines.direction").
Proof.
  eexists. split; [reflexivity|].
  apply (proj1 (proj2 (class_line_from_name
                         (Obj [("name", Prim (Str "defines.direction"));
                               ("values", Arr [Obj [("name", Prim (Str "north"))]])])
                         ("---@class " ++ "defines.direction")
                         (or_introl (ex_intro _ "defines.direction"
                                       (conj eq_refl eq_refl)))))).
  reflexivity.
Defined.

(** ** Define: values and sub-defines *)

Lemma DefineValue_new_name (x : json) (v : DefineValue.t) :
  DefineValue.new x = Ok v -> DefineValue.name v = field x "name".
Proof.
  unfold DefineValue.new. destruct (is_null x); [discriminate|].
  intros H. injection H as <-. reflexivity.
Qed.

(** X17: a define keeps its members in JSON order: [values] holds one
    define value per element of [json.values], carrying that element's
    name, and [subkeys] holds one define per element of [json.subkeys],
    each built by the same constructor. *)
Theorem Define_members_in_order (j : json) (d : Define.t) :
  Define.new j = Ok d ->
  (forall xs, field j "values" = Val (Arr xs) ->
     exists vs, Define.values d = Some vs /\
                map DefineValue.name vs = map (fun x => field x "name") xs) /\
  (forall xs, field j "subkeys" = Val (Arr xs) ->
     exists ds, Define.subkeys d = Some ds /\
                Forall2 (fun x sub => Define.new x = Ok sub) xs ds /\
                map (fun sub => BasicMember.name (Define.base sub)) ds
                = map (fun x => field x "name") xs).
Proof.
  rewrite Define_new_eq. intros H.
  apply bind_Ok in H as (b & _ & H).
  apply bind_Ok in H as (vals & Hvals & H).
  apply bind_Ok in H as (subs & Hsubs & H). injection H as <-.
  cbn [Define.values Define.subkeys]. split.
  - intros xs E. rewrite E in Hvals.
    destruct (new_each_Ok _ _ _ Hvals) as (vs & -> & HF).
    exists vs. split; [reflexivity|]. clear - HF.
    induction HF as [|x v xs vs Hx _ IH]; cbn [map]; [reflexivity|].
    f_equal; [exact (DefineValue_new_name x v Hx) | exact IH].
  - intros xs E. rewrite E in Hsubs.
    destruct (new_each_Ok _ _ _ Hsubs) as (ds & -> & HF).
    exists ds. split; [reflexivity|]. split; [exact HF|]. clear - HF.
    induction HF as [|x sub xs ds Hx _ IH]; cbn [map]; [reflexivity|].
    f_equal; [exact (Define_new_name x sub Hx) | exact IH].
Qed.

Lemma Define_members_in_order_witness :
  exists d vs,
    Define.new (Obj [("name", Prim (Str "direction"));
                     ("values", Arr [Obj [("name", Prim (Str "north"))];
                                     Obj [("name", Prim (Str "east"))]])]) = Ok d /\
    Define.values d = Some vs /\
    map DefineValue.name vs = [Val (Str "north"); Val (Str "east")].
Proof.
  eexists.
  destruct (proj1 (Define_members_in_order
                     (Obj [("name", Prim (Str "direction"));
                           ("values", Arr [Obj [("name", Prim (Str "north"))];
                                           Obj [("name", Prim (Str "east"))]])])
                     _ eq_refl) _ eq_refl) as (vs & Hvs & Hnames).
  exists vs. split; [reflexivity|]. split; [exact Hvs | exact Hnames].
Defined.

(** ** Descriptions *)

Lemma split_first_line_not_string (v : jsval) :
  (forall d, v <> Val (Str d)) -> split_first_line v = TypeError.
Proof.
  intros H. destruct v as [|[[| b | n | d] | xs | fs]]; try reflexivity.
  exfalso. exact (H d eq_refl).
Qed.

(** X18: the description a member stores is never [null]: it is the empty
    string when the JSON has none (or a falsy one), and otherwise the JSON
    value unchanged, whatever its type.  When that value is not a string,
    [toField] of a property, an attribute and a method throws. *)
Theorem member_description (j : json) (m : BasicMember.t) :
  BasicMember.new j = Ok m ->
  BasicMember.description m <> Null /\
  (truthy (field j "description") = false -> BasicMember.description m = Str "") /\
  (forall v, field j "description" = Val v -> truthy_json v = true ->
             BasicMember.description m = v) /\
  ((forall d, BasicMember.description m <> Str d) ->
   (forall p, Property_.base p = m -> Property_.toField p = TypeError) /\
   (forall a, Attribute.base a = m -> Attribute.toField a = TypeError) /\
   (forall f, Method.base f = m -> Method.toField f = TypeError)).
Proof.
  unfold BasicMember.new. destruct (is_null j); [discriminate|].
  intros H. apply bind_Ok in H as (imgs & _ & H). injection H as <-.
  cbn [BasicMember.description]. repeat apply conj.
  - destruct (field j "description") as [|v]; cbn [or_else]; [discriminate|].
    destruct (truthy_json v) eqn:E; [|discriminate].
    intros ->. discriminate E.
  - apply or_else_falsy.
  - intros v -> Hv. now apply or_else_truthy.
  - intros H.
    assert (Hsplit : split_first_line
                       (Val (or_else (field j "description") (Str "")))
                     = TypeError).
    { apply split_first_line_not_string.
      intros d E. injection E as E. exact (H d E). }
    repeat apply conj.
    + intros p Hp. unfold Property_.toField. rewrite Hp.
      cbn [BasicMember.description]. now rewrite Hsplit.
    + intros a Ha. unfold Attribute.toField. rewrite Ha.
      cbn [BasicMember.description]. now rewrite Hsplit.
    + intros f Hf. unfold Method.toField. rewrite Hf.
      cbn [BasicMember.description]. now rewrite Hsplit.
Qed.

Lemma member_description_witness :
  exists m,
    BasicMember.new (Obj [("name", Prim (Str "speed"));
                          ("description", Prim (Num 5))]) = Ok m /\
    BasicMember.description m = Num 5 /\
    forall a, Attribute.base a = m -> Attribute.toField a = TypeError.
Proof.
  eexists. split; [reflexivity|].
  destruct (member_description
              (Obj [("name", Prim (Str "speed")); ("description", Prim (Num 5))])
              _ eq_refl) as (_ & _ & Hkeep & Hthrow).
  split.
  - apply (Hkeep (Prim (Num 5))); reflexivity.
  - apply Hthrow. intros d. discriminate.
Defined.

(** ** Optional fields of every entity *)

Lemma Type_new_if_truthy_falsy (v : jsval) :
  truthy v = false -> Type_.new_if_truthy v = None.
Proof.
  destruct v as [|x]; cbn; [reflexivity|]. intros ->. reflexivity.
Qed.

Lemma new_if_truthy_falsy {A} (new_C : json -> res A) (v : jsval) :
  truthy v = false -> new_if_truthy new_C v = Ok None.
Proof.
  destruct v as [|x]; cbn; [reflexivity|]. intros ->. reflexivity.
Qed.

Lemma new_if_truthy_reads {A} (new_C : json -> res A) (v : jsval) :
  (forall x, is_null x = false -> succeeds (new_C x)) ->
  succeeds (new_if_truthy new_C v).
Proof.
  intros Hnew. destruct v as [|x]; cbn [new_if_truthy]; [eexists; reflexivity|].
  destruct (truthy_json x) eqn:Et; [|eexists; reflexivity].
  destruct (Hnew x (truthy_not_null x Et)) as (a & ->). eexists; reflexivity.
Qed.

Lemma VariadicParameter_new_reads (x : json) :
  is_null x = false -> succeeds (VariadicParameter.new x).
Proof.
  intros Hx. unfold VariadicParameter.new. rewrite Hx. eexists; reflexivity.
Qed.

Lemma MethodFormat_new_reads (x : json) :
  is_null x = false -> succeeds (MethodFormat.new x).
Proof.
  intros Hx. unfold MethodFormat.new. rewrite Hx. eexists; reflexivity.
Qed.

(** Every part a constructor returned with was built. *)
Ltac parts H :=
  repeat (let x := fresh "x" in
          let Hx := fresh "Hx" in
          apply bind_Ok in H as (x & Hx & H));
  injection H as <-.

(** A field read with [Array.isArray] from a value that is not an array,
    or with a truthiness test from a falsy value, is [null]. *)
Ltac is_default :=
  match goal with
  | Hn : not_array ?v, Hx : new_each _ ?v = Ok _ |- _ =>
      rewrite (new_each_not_array _ _ Hn) in Hx; congruence
  | Ht : truthy ?v = false, Hx : new_if_truthy _ ?v = Ok _ |- _ =>
      rewrite (new_if_truthy_falsy _ _ Ht) in Hx; congruence
  | Ht : truthy ?v = false |- Type_.new_if_truthy ?v = None =>
      exact (Type_new_if_truthy_falsy _ Ht)
  end.

Lemma BasicMember_optional_fields (j : json) (m : BasicMember.t) :
  BasicMember.new j = Ok m ->
  (not_array (field j "images") -> BasicMember.images m = None) /\
  (truthy (field j "lists") = false -> BasicMember.lists m = Null) /\
  (truthy (field j "examples") = false -> BasicMember.examples m = Null) /\
  (forall v, field j "lists" = Val v -> truthy_json v = true ->
             BasicMember.lists m = v) /\
  (forall v, field j "examples" = Val v -> truthy_json v = true ->
             BasicMember.examples m = v).
Proof.
  unfold BasicMember.new. destruct (is_null j); [discriminate|].
  intros H. parts H.
  cbn [BasicMember.images BasicMember.lists BasicMember.examples].
  repeat apply conj.
  - intros Hn. is_default.
  - apply or_else_falsy.
  - apply or_else_falsy.
  - intros v -> Hv. now apply or_else_truthy.
  - intros v -> Hv. now apply or_else_truthy.
Qed.

Lemma Method_optional_fields (j : json) (m : Method.t) :
  Method.new j = Ok m ->
  (not_array (field j "raises") -> Method.raises m = None) /\
  (not_array (field j "parameters") -> Method.parameters m = None) /\
  (not_array (field j "variant_parameter_groups") ->
   Method.variant_parameter_groups m = None) /\
  (not_array (field j "return_values") -> Method.return_values m = None) /\
  (truthy (field j "variadic_parameter") = false ->
   Method.variadic_parameter m = None) /\
  (truthy (field j "format") = false -> Method.format m = None).
Proof.
  unfold Method.new. intros H. parts H.
  cbn [Method.raises Method.parameters Method.variant_parameter_groups
       Method.return_values Method.variadic_parameter Method.format].
  repeat apply conj; intros Hn; is_default.
Qed.

Lemma Attribute_optional_fields (j : json) (a : Attribute.t) :
  Attribute.new j = Ok a ->
  (not_array (field j "raises") -> Attribute.raises a = None) /\
  (truthy (field j "read_type") = false -> Attribute.read_type a = None) /\
  (truthy (field j "write_type") = false -> Attribute.write_type a = None).
Proof.
  unfold Attribute.new. intros H. parts H.
  cbn [Attribute.raises Attribute.read_type Attribute.write_type].
  repeat apply conj; intros Hn; is_default.
Qed.

Lemma Class_optional_fields (j : json) (c : Class_.t) :
  Class_.new j = Ok c ->
  (not_array (field j "methods") -> Class_.methods c = None) /\
  (not_array (field j "attributes") -> Class_.attributes c = None) /\
  (not_array (field j "operators") -> Class_.operators c = None).
Proof.
  unfold Class_.new. intros H.
  apply bind_Ok in H as (b & _ & H).
  apply bind_Ok in H as (ms & Hms & H).
  apply bind_Ok in H as (ats & Hats & H).
  apply bind_Ok in H as (ops & Hops & H). injection H as <-.
  cbn [Class_.methods Class_.attributes Class_.operators].
  repeat apply conj; intros Hn; try is_default.
  destruct (field j "operators") as [|[p | xs | fs]];
    solve [contradiction | congruence].
Qed.

Lemma Define_optional_fields (j : json) (d : Define.t) :
  Define.new j = Ok d ->
  (not_array (field j "values") -> Define.values d = None) /\
  (not_array (field j "subkeys") -> Define.subkeys d = None).
Proof.
  rewrite Define_new_eq. intros H. parts H.
  cbn [Define.values Define.subkeys].
  split; intros Hn; is_default.
Qed.

(** When none of its array fields is an array, an entity is built. *)
Lemma entities_without_arrays (fs : list (string * json)) :
  not_array (field (Obj fs) "images") ->
  succeeds (BasicMember.new (Obj fs)) /\
  succeeds (Property_.new (Obj fs)) /\
  (not_array (field (Obj fs) "properties") ->
   succeeds (Concept.new (Obj fs)) /\ succeeds (Prototype.new (Obj fs))) /\
  (not_array (field (Obj fs) "values") ->
   not_array (field (Obj fs) "subkeys") ->
   succeeds (Define.new (Obj fs))) /\
  (not_array (field (Obj fs) "raises") ->
   succeeds (Attribute.new (Obj fs))) /\
  (not_array (field (Obj fs) "raises") ->
   not_array (field (Obj fs) "parameters") ->
   not_array (field (Obj fs) "variant_parameter_groups") ->
   not_array (field (Obj fs) "return_values") ->
   succeeds (Method.new (Obj fs))) /\
  (not_array (field (Obj fs) "methods") ->
   not_array (field (Obj fs) "attributes") ->
   not_array (field (Obj fs) "operators") ->
   succeeds (Class_.new (Obj fs))).
Proof.
  intros Hi.
  pose proof (BasicMember_new_no_images (Obj fs) eq_refl Hi) as Hb.
  repeat apply conj.
  - rewrite Hb. eexists; reflexivity.
  - unfold Property_.new. rewrite Hb. eexists; reflexivity.
  - intros Hp. split.
    + unfold Concept.new. rewrite Hb. cbn [bind].
      rewrite (new_each_not_array _ _ Hp). eexists; reflexivity.
    + unfold Prototype.new. rewrite Hb. cbn [bind].
      rewrite (new_each_not_array _ _ Hp). eexists; reflexivity.
  - intros Hv Hs. rewrite Define_new_eq, Hb. cbn [bind].
    rewrite (new_each_not_array _ _ Hv). cbn [bind].
    rewrite (new_each_not_array _ _ Hs). eexists; reflexivity.
  - intros Hr. unfold Attribute.new. rewrite Hb. cbn [bind].
    rewrite (new_each_not_array _ _ Hr). eexists; reflexivity.
  - intros Hr Hp Hg Hv. unfold Method.new. rewrite Hb. cbn [bind].
    rewrite (new_each_not_array _ _ Hr). cbn [bind].
    rewrite (new_each_not_array Parameter_.new _ Hp). cbn [bind].
    rewrite (new_each_not_array _ _ Hg). cbn [bind].
    built_by (new_if_truthy_reads VariadicParameter.new
                (field (Obj fs) "variadic_parameter") VariadicParameter_new_reads).
    built_by (new_if_truthy_reads MethodFormat.new (field (Obj fs) "format")
                MethodFormat_new_reads).
    rewrite (new_each_not_array Parameter_.new _ Hv). eexists; reflexivity.
  - intros Hm Ha Ho. unfold Class_.new. rewrite Hb. cbn [bind].
    rewrite (new_each_not_array Method.new _ Hm). cbn [bind].
    rewrite (new_each_not_array Attribute.new _ Ha). cbn [bind].
    destruct (field (Obj fs) "operators") as [|[p | xs | fs']];
      solve [contradiction | eexists; reflexivity].
Qed.

(** Every entity that extends [BasicMember] holds the member built from
    the same JSON. *)
Lemma entity_base (j : json) :
  (forall c, Concept.new j = Ok c -> BasicMember.new j = Ok (Concept.base c)) /\
  (forall d, Define.new j = Ok d -> BasicMember.new j = Ok (Define.base d)) /\
  (forall p, Property_.new j = Ok p -> BasicMember.new j = Ok (Property_.base p)) /\
  (forall p, Prototype.new j = Ok p -> BasicMember.new j = Ok (Prototype.base p)) /\
  (forall a, Attribute.new j = Ok a -> BasicMember.new j = Ok (Attribute.base a)) /\
  (forall m, Method.new j = Ok m -> BasicMember.new j = Ok (Method.base m)) /\
  (forall c, Class_.new j = Ok c -> BasicMember.new j = Ok (Class_.base c)).
Proof.
  repeat apply conj; intros e H;
    [ unfold Concept.new in H | rewrite Define_new_eq in H
    | unfold Property_.new in H | unfold Prototype.new in H
    | unfold Attribute.new in H | unfold Method.new in H
    | unfold Class_.new in H ];
    apply bind_Ok in H as (b & Hb & H); parts H; exact Hb.
Qed.

(** C8 (amended): for every entity that is built from JSON, whatever the
    other fields hold: [lists] and [examples] are [null] when the JSON
    field is missing or falsy and are the JSON value itself, whatever its
    shape, when it is truthy; [images] and every other array of nested
    entities ([properties], [values], [subkeys], [parameters], [raises],
    [variant_parameter_groups], [return_values], [methods], [attributes],
    [operators]) is [null] when the JSON field is missing or not an array;
    a nested object ([type], [read_type], [write_type],
    [variadic_parameter], [format]) is [null] when the JSON field is
    missing or falsy.  A missing or wrong-shape array field is never a
    cause of failure: its loop returns [null] without building anything,
    and an entity none of whose array fields is an array is always
    built. *)
Theorem optional_fields_default :
  (forall (j : json) (m : BasicMember.t),
     BasicMember.new j = Ok m ->
     (not_array (field j "images") -> BasicMember.images m = None) /\
     (truthy (field j "lists") = false -> BasicMember.lists m = Null) /\
     (truthy (field j "examples") = false -> BasicMember.examples m = Null) /\
     (forall v, field j "lists" = Val v -> truthy_json v = true ->
                BasicMember.lists m = v) /\
     (forall v, field j "examples" = Val v -> truthy_json v = true ->
                BasicMember.examples m = v)) /\
  (forall j : json,
     (forall c, Concept.new j = Ok c -> BasicMember.new j = Ok (Concept.base c)) /\
     (forall d, Define.new j = Ok d -> BasicMember.new j = Ok (Define.base d)) /\
     (forall p, Property_.new j = Ok p -> BasicMember.new j = Ok (Property_.base p)) /\
     (forall p, Prototype.new j = Ok p -> BasicMember.new j = Ok (Prototype.base p)) /\
     (forall a, Attribute.new j = Ok a -> BasicMember.new j = Ok (Attribute.base a)) /\
     (forall m, Method.new j = Ok m -> BasicMember.new j = Ok (Method.base m)) /\
     (forall c, Class_.new j = Ok c -> BasicMember.new j = Ok (Class_.base c))) /\
  (forall (j : json) (c : Concept.t),
     Concept.new j = Ok c ->
     (not_array (field j "properties") -> Concept.properties c = None) /\
     (truthy (field j "type") = false -> Concept.type c = None)) /\
  (forall (j : json) (d : Define.t),
     Define.new j = Ok d ->
     (not_array (field j "values") -> Define.values d = None) /\
     (not_array (field j "subkeys") -> Define.subkeys d = None)) /\
  (forall (j : json) (p : Property_.t),
     Property_.new j = Ok p ->
     truthy (field j "type") = false -> Property_.type p = None) /\
  (forall (j : json) (p : Prototype.t),
     Prototype.new j = Ok p ->
     not_array (field j "properties") -> Prototype.properties p = None) /\
  (forall (j : json) (p : Parameter_.t),
     Parameter_.new j = Ok p ->
     truthy (field j "type") = false -> Parameter_.type p = None) /\
  (forall (j : json) (g : ParameterGroup.t),
     ParameterGroup.new j = Ok g ->
     not_array (field j "parameters") -> ParameterGroup.parameters g = None) /\
  (forall (j : json) (v : VariadicParameter.t),
     VariadicParameter.new j = Ok v ->
     truthy (field j "type") = false -> VariadicParameter.type v = None) /\
  (forall (j : json) (a : Attribute.t),
     Attribute.new j = Ok a ->
     (not_array (field j "raises") -> Attribute.raises a = None) /\
     (truthy (field j "read_type") = false -> Attribute.read_type a = None) /\
     (truthy (field j "write_type") = false -> Attribute.write_type a = None)) /\
  (forall (j : json) (m : Method.t),
     Method.new j = Ok m ->
     (not_array (field j "raises") -> Method.raises m = None) /\
     (not_array (field j "parameters") -> Method.parameters m = None) /\
     (not_array (field j "variant_parameter_groups") ->
      Method.variant_parameter_groups m = None) /\
     (not_array (field j "return_values") -> Method.return_values m = None) /\
     (truthy (field j "variadic_parameter") = false ->
      Method.variadic_parameter m = None) /\
     (truthy (field j "format") = false -> Method.format m = None)) /\
  (forall (j : json) (c : Class_.t),
     Class_.new j = Ok c ->
     (not_array (field j "methods") -> Class_.methods c = None) /\
     (not_array (field j "attributes") -> Class_.attributes c = None) /\
     (not_array (field j "operators") -> Class_.operators c = None)) /\
  (forall (A : Type) (new_C : json -> res A) (v : jsval),
     not_array v -> new_each new_C v = Ok None) /\
  (forall fs : list (string * json),
     not_array (field (Obj fs) "images") ->
     succeeds (BasicMember.new (Obj fs)) /\
     succeeds (Property_.new (Obj fs)) /\
     (not_array (field (Obj fs) "properties") ->
      succeeds (Concept.new (Obj fs)) /\ succeeds (Prototype.new (Obj fs))) /\
     (not_array (field (Obj fs) "values") ->
      not_array (field (Obj fs) "subkeys") ->
      succeeds (Define.new (Obj fs))) /\
     (not_array (field (Obj fs) "raises") ->
      succeeds (Attribute.new (Obj fs))) /\
     (not_array (field (Obj fs) "raises") ->
      not_array (field (Obj fs) "parameters") ->
      not_array (field (Obj fs) "variant_parameter_groups") ->
      not_array (field (Obj fs) "return_values") ->
      succeeds (Method.new (Obj fs))) /\
     (not_array (field (Obj fs) "methods") ->
      not_array (field (Obj fs) "attributes") ->
      not_array (field (Obj fs) "operators") ->
      succeeds (Class_.new (Obj fs)))).
Proof.
  split; [exact BasicMember_optional_fields|].
  split; [exact entity_base|].
  split.
  { intros j c H. unfold Concept.new in H. parts H.
    cbn [Concept.properties Concept.type]. split; intros Hn; is_default. }
  split; [exact Define_optional_fields|].
  split.
  { intros j p H Ht. unfold Property_.new in H. parts H.
    cbn [Property_.type]. is_default. }
  split.
  { intros j p H Hn. unfold Prototype.new in H. parts H.
    cbn [Prototype.properties]. is_default. }
  split.
  { intros j p H Ht. unfold Parameter_.new in H.
    destruct (is_null j); [discriminate|]. injection H as <-.
    cbn [Parameter_.type]. is_default. }
  split.
  { intros j g H Hn. unfold ParameterGroup.new in H.
    destruct (is_null j); [discriminate|]. parts H.
    cbn [ParameterGroup.parameters]. is_default. }
  split.
  { intros j v H Ht. unfold VariadicParameter.new in H.
    destruct (is_null j); [discriminate|]. injection H as <-.
    cbn [VariadicParameter.type]. is_default. }
  split; [exact Attribute_optional_fields|].
  split; [exact Method_optional_fields|].
  split; [exact Class_optional_fields|].
  split; [intros A new_C v; apply new_each_not_array|].
  exact entities_without_arrays.
Qed.

Lemma optional_fields_default_witness :
  exists m,
    BasicMember.new (Obj [("name", Prim (Str "x"));
                          ("examples", Prim (Num 0));
                          ("images", Arr [Obj [("filename", Prim (Str "a.png"))]])])
    = Ok m /\
    BasicMember.lists m = Null /\
    BasicMember.examples m = Null /\
    BasicMember.images m <> None.
Proof.
  eexists. split; [reflexivity|].
  destruct (proj1 optional_fields_default
              (Obj [("name", Prim (Str "x"));
                    ("examples", Prim (Num 0));
                    ("images", Arr [Obj [("filename", Prim (Str "a.png"))]])])
              _ eq_refl) as (_ & Hl & He & _).
  split; [apply Hl; reflexivity|]. split; [apply He; reflexivity | discriminate].
Defined.
